(** * Kotoba multi-crate generator: dependency resolution, version policy
      and manifest emission of [scripts/generate_crates.py], and the
      publish preparation of [scripts/prepare_publish.py].

    The methods of [CrateGenerator] read two attributes, [crate_mapping]
    (the package partition) and [dag_data] (the component graph).  Here they
    are explicit arguments, and the values assigned in [__init__] and
    [_load_dag_data] are the constants [builtin_crate_mapping] and
    [builtin_dag_data]. *)

From Stdlib Require Import String Ascii List ZArith Lia Bool Permutation.
From Stdlib Require Import Floats.SpecFloat.
From Stdlib Require Import DecimalString.
Import ListNotations.

Local Open Scope string_scope.
Local Open Scope Z_scope.

(** ** Python values *)

(** Exceptions the modelled statements can raise. *)
Inductive exn : Type :=
| KeyError (key : string)
| IndexError
| ZeroDivisionError.

(** A computation either returns or raises. *)
Inductive py (A : Type) : Type :=
| Ok (a : A)
| Raise (e : exn).

Arguments Ok {A} a.
Arguments Raise {A} e.

Definition bind {A B : Type} (m : py A) (k : A -> py B) : py B :=
  match m with
  | Ok a => k a
  | Raise e => Raise e
  end.

Notation "x <- m ;; k" := (bind m (fun x => k))
  (at level 61, m at next level, right associativity).

(** A [dict] keeps its items in insertion order; a well-formed one has no
    repeated key. *)
Definition dict (V : Type) : Type := list (string * V).

Definition keys {V : Type} (d : dict V) : list string := map fst d.

Definition wf_dict {V : Type} (d : dict V) : Prop := NoDup (keys d).

Fixpoint dict_get {V : Type} (d : dict V) (k : string) : option V :=
  match d with
  | [] => None
  | (k', v) :: rest => if String.eqb k k' then Some v else dict_get rest k
  end.

(** [k in d] *)
Definition dict_mem {V : Type} (d : dict V) (k : string) : bool :=
  match dict_get d k with
  | Some _ => true
  | None => false
  end.

(** [d[k]] *)
Definition dict_item {V : Type} (d : dict V) (k : string) : py V :=
  match dict_get d k with
  | Some v => Ok v
  | None => Raise (KeyError k)
  end.

(** [d.get(k, default)] *)
Definition dict_get_default {V : Type} (d : dict V) (k : string) (default : V) : V :=
  match dict_get d k with
  | Some v => v
  | None => default
  end.

(** [x in l] for a list of strings *)
Definition list_mem (x : string) (l : list string) : bool :=
  existsb (String.eqb x) l.

(** The iteration order of a [set] of strings is fixed by the hashes of its
    elements, which CPython salts per process.  [set_iter] maps the sequence
    of insertions to the order in which the resulting set is iterated: it
    yields each element once and nothing else. *)
Class SetOrder : Type := {
  set_iter : list string -> list string;
  set_iter_NoDup : forall l, NoDup (set_iter l);
  set_iter_In : forall l x, In x (set_iter l) <-> In x l
}.

(** ** The component graph and the partition *)

Record edge : Type := mkEdge { edge_from : string; edge_to : string }.

Record dag : Type := mkDag {
  nodes : dict (dict string);
  edges : list edge
}.

Definition crate_map : Type := dict (list string).

(** ** Dependency resolver *)

Fixpoint _get_crate_from_component (crate_mapping : crate_map) (component : string) : string :=
  match crate_mapping with
  | [] => "kotoba-core"
  | (crate_name, components) :: rest =>
      if list_mem component components then crate_name
      else _get_crate_from_component rest component
  end.

(** [[edge['from'] for edge in edges if edge['to'] == comp]] *)
Definition producers (dag_data : dag) (comp : string) : list string :=
  map edge_from (filter (fun e => String.eqb (edge_to e) comp) (edges dag_data)).

(** The values passed to [all_deps.update], in order. *)
Definition collected_deps (dag_data : dag) (components : list string) : list string :=
  flat_map (fun comp =>
              if dict_mem (nodes dag_data) comp then producers dag_data comp else [])
           components.

(** The second loop: [external_deps] after iterating [all_deps]. *)
Fixpoint external_of (crate_mapping : crate_map) (crate_name : string)
         (all_deps : list string) : list string :=
  match all_deps with
  | [] => []
  | dep :: rest =>
      let dep_crate := _get_crate_from_component crate_mapping dep in
      if negb (String.eqb dep_crate crate_name)
      then dep_crate :: external_of crate_mapping crate_name rest
      else external_of crate_mapping crate_name rest
  end.

Definition _get_crate_dependencies `{SetOrder} (crate_mapping : crate_map) (dag_data : dag)
           (crate_name : string) : py (list string) :=
  if negb (dict_mem crate_mapping crate_name) then Ok []
  else
    components <- dict_item crate_mapping crate_name ;;
    let all_deps := set_iter (collected_deps dag_data components) in
    let external_deps := external_of crate_mapping crate_name all_deps in
    Ok (set_iter external_deps).

(** ** Version policy *)

(** Python floats are IEEE 754 binary64 values. *)
Module Float.

Definition prec : Z := 53.
Definition emax : Z := 1024.

Definition t : Type := spec_float.

(** [float(n)] for an [int]; exact when [|n| < 2^53]. *)
Definition of_int (n : Z) : t := binary_normalize prec emax n 0 false.

(** [a / b] on two [int]s: the quotient rounded to the nearest float, ties
    to even.  For operands below [2^53] this is the IEEE division of the
    two converted operands. *)
Definition truediv (a b : Z) : py t :=
  if b =? 0 then Raise ZeroDivisionError
  else Ok (SFdiv prec emax (of_int a) (of_int b)).

(** [x >= y] *)
Definition ge (x y : t) : bool := SFleb y x.

(** The literal [0.8]: the float nearest to 8/10, [0x1.999999999999ap-1]. *)
Definition lit_0_8 : t := S754_finite false 7205759403792794 (-53).

(** The literal [0.5]. *)
Definition lit_0_5 : t := S754_finite false 4503599627370496 (-53).

(** Quotient [n / d] rounded to the nearest integer, ties to even. *)
Definition rne_div (n d : Z) : Z :=
  let q := n / d in
  let r := n mod d in
  match 2 * r ?= d with
  | Lt => q
  | Eq => if Z.even q then q else q + 1
  | Gt => q + 1
  end.

(** A rounded significand [m] in [2^52, 2^53] at exponent [e], renormalised
    when the rounding carried into bit 53. *)
Definition carry (m e : Z) : t :=
  if m =? 2 ^ 53 then S754_finite false (Z.to_pos (2 ^ 52)) (e + 1)
  else S754_finite false (Z.to_pos m) e.

End Float.

Definition status_completed (node : dict string) : bool :=
  match dict_get node "status" with
  | Some s => String.eqb s "completed"
  | None => false
  end.

(** The counting loop of [_get_crate_version]; [acc] is
    [(completed_count, total_count)]. *)
Fixpoint count_loop (node_table : dict (dict string)) (components : list string)
         (acc : Z * Z) : py (Z * Z) :=
  match components with
  | [] => Ok acc
  | comp :: rest =>
      if dict_mem node_table comp then
        node <- dict_item node_table comp ;;
        let total_count := snd acc + 1 in
        let completed_count :=
          if status_completed node then fst acc + 1 else fst acc in
        count_loop node_table rest (completed_count, total_count)
      else count_loop node_table rest acc
  end.

Definition _get_crate_version (crate_mapping : crate_map) (dag_data : dag)
           (crate_name : string) : py string :=
  counts <- count_loop (nodes dag_data) (dict_get_default crate_mapping crate_name []) (0, 0) ;;
  let completed_count := fst counts in
  let total_count := snd counts in
  if total_count =? 0 then Ok "0.1.0"
  else
    completion_rate <- Float.truediv completed_count total_count ;;
    if Float.ge completion_rate Float.lit_0_8 then Ok "0.1.0"
    else if Float.ge completion_rate Float.lit_0_5 then Ok "0.1.0-alpha"
    else Ok "0.1.0-dev".

(** The number of components of a package that are nodes of the graph, and
    how many of those have status [completed]. *)
Definition counted (dag_data : dag) (components : list string) : list string :=
  filter (dict_mem (nodes dag_data)) components.

Definition is_completed (dag_data : dag) (comp : string) : bool :=
  match dict_get (nodes dag_data) comp with
  | Some node => status_completed node
  | None => false
  end.

Definition total_of (crate_mapping : crate_map) (dag_data : dag) (crate_name : string) : Z :=
  Z.of_nat (length (counted dag_data (dict_get_default crate_mapping crate_name []))).

Definition completed_of (crate_mapping : crate_map) (dag_data : dag) (crate_name : string) : Z :=
  Z.of_nat (length (filter (is_completed dag_data)
                           (counted dag_data (dict_get_default crate_mapping crate_name [])))).

(** The three tiers, ordered [dev <= alpha <= release]. *)
Inductive tier : Type := dev | alpha | release.

Definition tier_rank (x : tier) : Z :=
  match x with dev => 0 | alpha => 1 | release => 2 end.

Definition tier_le (x y : tier) : Prop := tier_rank x <= tier_rank y.

Definition tier_of_version (v : string) : option tier :=
  if String.eqb v "0.1.0" then Some release
  else if String.eqb v "0.1.0-alpha" then Some alpha
  else if String.eqb v "0.1.0-dev" then Some dev
  else None.

(** ** Manifest emitter *)

Definition nl : string := String "010"%char EmptyString.
Definition dq : string := String "034"%char EmptyString.

(** [s] between double quotes. *)
Definition quoted (s : string) : string := dq ++ s ++ dq.

(** One line of a template, with its line feed. *)
Definition line (s : string) : string := s ++ nl.

(** [s.split(sep)] for a one-character separator. *)
Fixpoint split (sep : ascii) (s : string) : list string :=
  match s with
  | EmptyString => [EmptyString]
  | String c rest =>
      if Ascii.eqb c sep then EmptyString :: split sep rest
      else match split sep rest with
           | [] => [String c EmptyString]
           | w :: ws => String c w :: ws
           end
  end.

(** [l[i]] *)
Definition list_item {A : Type} (l : list A) (i : nat) : py A :=
  match nth_error l i with
  | Some a => Ok a
  | None => Raise IndexError
  end.

(** [sep.join(l)] *)
Fixpoint join (sep : string) (l : list string) : string :=
  match l with
  | [] => EmptyString
  | [s] => s
  | s :: rest => s ++ sep ++ join sep rest
  end.

Definition is_upper (c : ascii) : bool :=
  ((65 <=? nat_of_ascii c) && (nat_of_ascii c <=? 90))%nat.

Definition is_lower (c : ascii) : bool :=
  ((97 <=? nat_of_ascii c) && (nat_of_ascii c <=? 122))%nat.

Definition to_upper (c : ascii) : ascii := ascii_of_nat (nat_of_ascii c - 32).
Definition to_lower (c : ascii) : ascii := ascii_of_nat (nat_of_ascii c + 32).

(** [s.title()] on ASCII text: the first letter of every run of letters in
    upper case, the others in lower case. *)
Fixpoint title_from (previous_is_cased : bool) (s : string) : string :=
  match s with
  | EmptyString => EmptyString
  | String c rest =>
      if is_lower c then
        String (if previous_is_cased then c else to_upper c) (title_from true rest)
      else if is_upper c then
        String (if previous_is_cased then to_lower c else c) (title_from true rest)
      else String c (title_from false rest)
  end.

Definition title (s : string) : string := title_from false s.

(** An entry of [common_deps]: a version string, or a table with an optional
    [version] and a list of [features]. *)
Inductive dep_config : Type :=
| CfgStr (version : string)
| CfgTable (version : option string) (features : list string).

Definition common_deps : dict dep_config :=
  [ ("serde", CfgTable (Some "1.0") ["derive"]);
    ("serde_json", CfgStr "1.0");
    ("thiserror", CfgStr "2.0");
    ("anyhow", CfgStr "1.0") ].

(** [repr] of a list of strings that need no escaping. *)
Definition repr_list (l : list string) : string :=
  "[" ++ join ", " (map (fun s => "'" ++ s ++ "'") l) ++ "]".

Definition table_version (version : option string) : py string :=
  match version with
  | Some v => Ok v
  | None => Raise (KeyError "version")
  end.

Fixpoint common_deps_loop (deps : dict dep_config) (toml_content : string) : py string :=
  match deps with
  | [] => Ok toml_content
  | (dep, CfgStr config) :: rest =>
      common_deps_loop rest (toml_content ++ line (dep ++ " = " ++ quoted config))
  | (dep, CfgTable version features) :: rest =>
      match features with
      | _ :: _ =>
          v <- table_version version ;;
          common_deps_loop rest
            (toml_content ++ line (dep ++ " = { version = " ++ quoted v
                                       ++ ", features = " ++ repr_list features ++ " }"))
      | [] =>
          v <- table_version version ;;
          common_deps_loop rest (toml_content ++ line (dep ++ " = " ++ quoted v))
      end
  end.

Definition nonempty (s : string) : bool :=
  match s with EmptyString => false | _ => true end.

Fixpoint internal_deps_loop (crate_mapping : crate_map) (dag_data : dag)
         (crate_name : string) (dependencies : list string) (toml_content : string)
  : py string :=
  match dependencies with
  | [] => Ok toml_content
  | dep :: rest =>
      if nonempty dep && negb (String.eqb dep crate_name) then
        dep_version <- _get_crate_version crate_mapping dag_data dep ;;
        internal_deps_loop crate_mapping dag_data crate_name rest
          (toml_content ++ line (dep ++ " = { path = " ++ quoted ("../" ++ dep)
                                     ++ ", version = " ++ quoted dep_version ++ " }"))
      else internal_deps_loop crate_mapping dag_data crate_name rest toml_content
  end.

Definition package_header (crate_name version part : string) : string :=
  line "[package]"
  ++ line ("name = " ++ quoted crate_name)
  ++ line ("version = " ++ quoted version)
  ++ line ("edition = " ++ quoted "2021")
  ++ line ("description = " ++ quoted ("Kotoba " ++ title part ++ " Components"))
  ++ line ("license = " ++ quoted "Apache-2.0")
  ++ line ("repository = " ++ quoted "https://github.com/com-junkawasaki/kotoba")
  ++ line EmptyString
  ++ line "[dependencies]".

Definition wasm_block : string :=
  line EmptyString
  ++ line "[features]"
  ++ line ("default = [" ++ quoted "std" ++ "]")
  ++ line "std = []"
  ++ line ("wasm = [" ++ quoted "wasm-bindgen" ++ ", " ++ quoted "web-sys" ++ ", "
           ++ quoted "js-sys" ++ "]")
  ++ line EmptyString
  ++ line ("[target.'cfg(target_arch = " ++ quoted "wasm32" ++ ")'.dependencies]")
  ++ line ("wasm-bindgen = { version = " ++ quoted "0.2" ++ ", optional = true }")
  ++ line ("web-sys = { version = " ++ quoted "0.3" ++ ", optional = true }")
  ++ line ("js-sys = { version = " ++ quoted "0.3" ++ ", optional = true }").

Definition dev_block : string :=
  line EmptyString
  ++ line "[dev-dependencies]"
  ++ line ("tokio = { version = " ++ quoted "1.0" ++ ", features = [" ++ quoted "full" ++ "] }").

(** The body of [generate_cargo_toml] once [version] and [dependencies] are
    known. *)
Definition emit_cargo_toml (crate_mapping : crate_map) (dag_data : dag)
           (crate_name version : string) (dependencies : list string) : py string :=
  part <- list_item (split "-"%char crate_name) 1 ;;
  let toml_content := package_header crate_name version part in
  toml_content <- common_deps_loop common_deps toml_content ;;
  toml_content <- internal_deps_loop crate_mapping dag_data crate_name dependencies toml_content ;;
  let toml_content :=
    if list_mem crate_name ["kotoba-core"; "kotoba-graph"; "kotoba-server"]
    then toml_content ++ wasm_block else toml_content in
  Ok (toml_content ++ dev_block).

Definition generate_cargo_toml `{SetOrder} (crate_mapping : crate_map) (dag_data : dag)
           (crate_name : string) : py string :=
  version <- _get_crate_version crate_mapping dag_data crate_name ;;
  dependencies <- _get_crate_dependencies crate_mapping dag_data crate_name ;;
  emit_cargo_toml crate_mapping dag_data crate_name version dependencies.

(** The given lines, each with its line feed. *)
Fixpoint unlines (l : list string) : string :=
  match l with
  | [] => EmptyString
  | s :: rest => line s ++ unlines rest
  end.

Definition member_line (member : string) : string := "    " ++ quoted member ++ ",".

Definition root_line : string := "    " ++ quoted "kotoba" ++ ",  # Root crate".

Definition workspace_tail : list string :=
  [ "]"; EmptyString;
    "[workspace.package]";
    "version = " ++ quoted "0.1.0";
    "edition = " ++ quoted "2021";
    "license = " ++ quoted "Apache-2.0";
    "repository = " ++ quoted "https://github.com/com-junkawasaki/kotoba";
    EmptyString;
    "[workspace.dependencies]";
    "# Common dependencies can be defined here";
    "serde = { version = " ++ quoted "1.0" ++ ", features = [" ++ quoted "derive" ++ "] }";
    "serde_json = " ++ quoted "1.0";
    "thiserror = " ++ quoted "2.0";
    "anyhow = " ++ quoted "1.0" ].

Definition generate_workspace_cargo_toml (crate_mapping : crate_map) : string :=
  let workspace_members := keys crate_mapping in
  let members_str := join nl (map member_line workspace_members) in
  line "[workspace]"
  ++ line "members = ["
  ++ line members_str
  ++ line root_line
  ++ unlines workspace_tail.

(** ** The data assigned in [__init__] and [_load_dag_data] *)

Definition builtin_crate_mapping : crate_map :=
  [ ("kotoba-core",
     ["types"; "ir_catalog"; "ir_rule"; "ir_query"; "ir_patch"; "ir_strategy"]);
    ("kotoba-graph",
     ["graph_vertex"; "graph_edge"; "graph_core"]);
    ("kotoba-storage",
     ["storage_mvcc"; "storage_merkle"; "storage_lsm"]);
    ("kotoba-execution",
     ["execution_parser"; "execution_engine"; "planner_logical";
      "planner_physical"; "planner_optimizer"]);
    ("kotoba-rewrite",
     ["rewrite_matcher"; "rewrite_applier"; "rewrite_engine"]);
    ("kotoba-server",
     ["http_ir"; "http_parser"; "http_handlers"; "http_engine"; "http_server";
      "frontend_component_ir"; "frontend_route_ir"; "frontend_render_ir";
      "frontend_build_ir"; "frontend_api_ir"; "frontend_framework"]) ].

Definition node (status : string) : dict string := [("status", status)].

Definition builtin_dag_data : dag :=
  {| nodes :=
       [ ("types", node "completed");
         ("ir_catalog", node "completed");
         ("ir_rule", node "completed");
         ("ir_query", node "completed");
         ("ir_patch", node "completed");
         ("ir_strategy", node "completed");
         ("graph_vertex", node "completed");
         ("graph_edge", node "completed");
         ("graph_core", node "completed");
         ("storage_mvcc", node "completed");
         ("storage_merkle", node "completed");
         ("storage_lsm", node "completed");
         ("execution_parser", node "completed");
         ("execution_engine", node "completed");
         ("planner_logical", node "completed");
         ("planner_physical", node "completed");
         ("planner_optimizer", node "completed");
         ("rewrite_matcher", node "completed");
         ("rewrite_applier", node "completed");
         ("rewrite_engine", node "completed");
         ("http_ir", node "completed");
         ("http_parser", node "pending");
         ("http_handlers", node "pending");
         ("http_engine", node "pending");
         ("http_server", node "pending");
         ("frontend_component_ir", node "completed");
         ("frontend_route_ir", node "completed");
         ("frontend_render_ir", node "completed");
         ("frontend_build_ir", node "completed");
         ("frontend_api_ir", node "completed");
         ("frontend_framework", node "in_progress") ];
     edges :=
       [ mkEdge "types" "ir_catalog";
         mkEdge "types" "graph_vertex";
         mkEdge "types" "graph_edge";
         mkEdge "graph_vertex" "graph_core";
         mkEdge "graph_edge" "graph_core";
         mkEdge "types" "graph_core" ] |}.

(** ** Observations used to state the properties *)


(** No component is listed by two packages, nor twice by one. *)
Definition disjoint_partition (crate_mapping : crate_map) : Prop :=
  wf_dict crate_mapping /\
  forall p q cs ds c,
    In (p, cs) crate_mapping -> In (q, ds) crate_mapping ->
    In c cs -> In c ds -> p = q.

(** Reading the [members] array back from a workspace manifest: the quoted
    item of every line between [members = [] and the closing bracket. *)
Definition is_dq (c : ascii) : bool := Ascii.eqb c "034"%char.

Fixpoint after_dq (s : string) : option string :=
  match s with
  | EmptyString => None
  | String c rest => if is_dq c then Some rest else after_dq rest
  end.

Fixpoint until_dq (s : string) : option string :=
  match s with
  | EmptyString => None
  | String c rest =>
      if is_dq c then Some EmptyString
      else match until_dq rest with
           | Some w => Some (String c w)
           | None => None
           end
  end.

Definition quoted_item (l : string) : list string :=
  match after_dq l with
  | Some rest => match until_dq rest with
                 | Some w => [w]
                 | None => []
                 end
  | None => []
  end.

Fixpoint after_open (ls : list string) : list string :=
  match ls with
  | [] => []
  | l :: rest => if String.eqb l "members = [" then rest else after_open rest
  end.

Fixpoint until_close (ls : list string) : list string :=
  match ls with
  | [] => []
  | l :: rest => if String.eqb l "]" then [] else l :: until_close rest
  end.

Definition manifest_members (text : string) : list string :=
  flat_map quoted_item (until_close (after_open (split "010"%char text))).

(** A name that can stand in a manifest line: no double quote, no line feed. *)
Fixpoint plain (s : string) : bool :=
  match s with
  | EmptyString => true
  | String c rest => negb (is_dq c) && negb (Ascii.eqb c "010"%char) && plain rest
  end.

(** Two iteration orders a set can have. *)
Definition order_kept (l : list string) : list string := nodup string_dec l.



(** ** Sample graphs and partitions *)

(** A graph with one node, and edges that mention components never added. *)
Definition dangling_mapping : crate_map :=
  [ ("pkg-x", ["a"; "b"]); ("pkg-y", ["c"; "ghost"]) ].

Definition dangling_dag : dag :=
  {| nodes := [ ("c", node "pending") ];
     edges := [ mkEdge "a" "ghost"; mkEdge "phantom" "c" ] |}.

(** A package without components. *)
Definition empty_mapping : crate_map := [ ("kotoba-empty", []) ].

(** Packages at the two boundaries: 4 of 5 and 1 of 2 components completed. *)
Definition boundary_mapping : crate_map :=
  [ ("pkg-high", ["a"; "b"; "c"; "d"; "e"]); ("pkg-half", ["f"; "g"]) ].

Definition boundary_dag : dag :=
  {| nodes := [ ("a", node "completed"); ("b", node "completed");
                ("c", node "completed"); ("d", node "completed");
                ("e", node "pending");
                ("f", node "completed"); ("g", node "in_progress") ];
     edges := [] |}.

(** The same graph once component [g] is completed. *)
Definition boundary_dag_later : dag :=
  {| nodes := [ ("a", node "completed"); ("b", node "completed");
                ("c", node "completed"); ("d", node "completed");
                ("e", node "pending");
                ("f", node "completed"); ("g", node "completed") ];
     edges := [] |}.

(** Two producers in two packages, one consumer in a third. *)
Definition fan_in_mapping : crate_map :=
  [ ("kotoba-a", ["a"]); ("kotoba-b", ["b"]); ("kotoba-c", ["c"]) ].

Definition fan_in_dag : dag :=
  {| nodes := [ ("a", node "completed"); ("b", node "completed"); ("c", node "completed") ];
     edges := [ mkEdge "a" "c"; mkEdge "b" "c" ] |}.

(** A partition that lists component [b] twice, and a graph with the single
    edge of [fan_in_dag] that enters [c] from [a]. *)
Definition overlapping_mapping : crate_map :=
  [ ("pkg-x", ["a"; "b"]); ("pkg-y", ["b"; "c"]) ].

Definition single_edge_dag : dag :=
  {| nodes := nodes fan_in_dag; edges := [ mkEdge "a" "c" ] |}.

(** [dangling_mapping] without the component that is not a node. *)
Definition declared_mapping : crate_map :=
  [ ("pkg-x", ["a"; "b"]); ("pkg-y", ["c"]) ].

(** ** Text of a package manifest *)

(** [c in s] for a character. *)
Fixpoint contains_char (c : ascii) (s : string) : bool :=
  match s with
  | EmptyString => false
  | String c' rest => Ascii.eqb c' c || contains_char c rest
  end.

(** The lines the loop over [common_deps] adds. *)
Definition common_block : string :=
  line ("serde = { version = " ++ quoted "1.0" ++ ", features = ['derive'] }")
  ++ line ("serde_json = " ++ quoted "1.0")
  ++ line ("thiserror = " ++ quoted "2.0")
  ++ line ("anyhow = " ++ quoted "1.0").

(** The entry of an internal dependency. *)
Definition dependency_line (dep dep_version : string) : string :=
  line (dep ++ " = { path = " ++ quoted ("../" ++ dep)
            ++ ", version = " ++ quoted dep_version ++ " }").

(** ** Writing the crates: [create_crate_structure] and [run] *)

(** A [Path] built from [project_root] with [/]. *)
Inductive path : Type :=
| project_root
| child (parent : path) (name : string).

(** What the generator does to the outside, in order.  The calls are taken
    to succeed: errors of the file system are not modelled. *)
Inductive event : Type :=
| Mkdir (p : path) (parents exist_ok : bool)
| WriteText (p : path) (content : string)
| Print (message : string).

(** A computation with its trace of events up to the return or the raise. *)
Definition io (A : Type) : Type := (list event * py A)%type.

Definition io_ret {A : Type} (a : A) : io A := ([], Ok a).

Definition io_bind {A B : Type} (m : io A) (k : A -> io B) : io B :=
  match m with
  | (trace, Ok a) => let (trace', r) := k a in ((trace ++ trace')%list, r)
  | (trace, Raise e) => (trace, Raise e)
  end.

Definition emit (e : event) : io unit := ([e], Ok tt).

Definition lift {A : Type} (m : py A) : io A := ([], m).

Notation "x <~ m ;; k" := (io_bind m (fun x => k))
  (at level 61, m at next level, right associativity).
Notation "m ;;; k" := (io_bind m (fun _ => k))
  (at level 61, right associativity).

Definition crates_dir : path := child project_root "crates".

(** [str(n)] for an [int]. *)
Definition str_of_int (n : Z) : string := NilZero.string_of_int (Z.to_int n).

Definition lib_content (crate_name part : string) : string :=
  line ("//! " ++ crate_name ++ " - Kotoba " ++ title part ++ " Components")
  ++ line EmptyString
  ++ line "pub mod prelude {"
  ++ line "    // Re-export commonly used items"
  ++ line "}"
  ++ line EmptyString
  ++ line "#[cfg(test)]"
  ++ line "mod tests {"
  ++ line "    // Tests will be added here"
  ++ line "}".

Definition create_crate_structure `{SetOrder} (crate_mapping : crate_map) (dag_data : dag)
           (crate_name : string) : io unit :=
  let crate_dir := child crates_dir crate_name in
  emit (Mkdir crate_dir true true) ;;;
  cargo_toml <~ lift (generate_cargo_toml crate_mapping dag_data crate_name) ;;
  emit (WriteText (child crate_dir "Cargo.toml") cargo_toml) ;;;
  let src_dir := child crate_dir "src" in
  emit (Mkdir src_dir false true) ;;;
  part <~ lift (list_item (split "-"%char crate_name) 1) ;;
  emit (WriteText (child src_dir "lib.rs") (lib_content crate_name part)) ;;;
  emit (Print ("Created crate: " ++ crate_name)).

(** [for crate_name in ...: self.create_crate_structure(crate_name)] *)
Fixpoint create_all `{SetOrder} (crate_mapping : crate_map) (dag_data : dag)
         (crate_names : list string) : io unit :=
  match crate_names with
  | [] => io_ret tt
  | crate_name :: rest =>
      create_crate_structure crate_mapping dag_data crate_name ;;;
      create_all crate_mapping dag_data rest
  end.

(** [sum(len(comps) for comps in self.crate_mapping.values())] *)
Definition total_components (crate_mapping : crate_map) : Z :=
  fold_left (fun acc item => acc + Z.of_nat (length (snd item))) crate_mapping 0.

Definition run `{SetOrder} (crate_mapping : crate_map) (dag_data : dag) : io unit :=
  emit (Print "Generating Kotoba multi-crate structure...") ;;;
  create_all crate_mapping dag_data (keys crate_mapping) ;;;
  let workspace_toml := generate_workspace_cargo_toml crate_mapping in
  emit (WriteText (child project_root "Cargo.toml") workspace_toml) ;;;
  emit (Print "Multi-crate generation completed!") ;;;
  emit (Print ("Generated " ++ str_of_int (Z.of_nat (length crate_mapping))
                            ++ " crates with "
                            ++ str_of_int (total_components crate_mapping)
                            ++ " components")).

(** The files written along a trace, in order, and the lines printed. *)
Fixpoint written (trace : list event) : list (path * string) :=
  match trace with
  | [] => []
  | WriteText p content :: rest => (p, content) :: written rest
  | _ :: rest => written rest
  end.

Fixpoint created_dirs (trace : list event) : list path :=
  match trace with
  | [] => []
  | Mkdir p _ _ :: rest => p :: created_dirs rest
  | _ :: rest => created_dirs rest
  end.

(** The two files of a crate. *)
Definition cargo_path (crate_name : string) : path :=
  child (child crates_dir crate_name) "Cargo.toml".

Definition lib_path (crate_name : string) : path :=
  child (child (child crates_dir crate_name) "src") "lib.rs".

Definition crate_paths (crate_names : list string) : list path :=
  flat_map (fun k => [cargo_path k; lib_path k]) crate_names.

(** A partition whose second package has a name without hyphen. *)
Definition unhyphenated_mapping : crate_map :=
  [ ("kotoba-a", ["a"]); ("kotoba", ["b"]); ("kotoba-c", ["c"]) ].

(** A chain [a -> b -> c] over three packages, and its last hop alone. *)
Definition chain_mapping : crate_map := fan_in_mapping.

Definition chain_dag : dag :=
  {| nodes := nodes fan_in_dag; edges := [ mkEdge "a" "b"; mkEdge "b" "c" ] |}.

Definition last_hop_dag : dag :=
  {| nodes := nodes fan_in_dag; edges := [ mkEdge "b" "c" ] |}.

(** ** Counting over the components a package lists *)

(** The number of components listed for a package, and how many of them
    have status [completed] in the graph; components that are not nodes are
    part of the first count. *)
Definition listed_total (crate_mapping : crate_map) (crate_name : string) : Z :=
  Z.of_nat (length (dict_get_default crate_mapping crate_name [])).

Definition listed_completed (crate_mapping : crate_map) (dag_data : dag)
           (crate_name : string) : Z :=
  Z.of_nat (length (filter (is_completed dag_data)
                           (dict_get_default crate_mapping crate_name []))).

(** A package of five components; a graph that has only the first of them,
    completed, and a graph that has all five, two of them completed. *)
Definition five_mapping : crate_map :=
  [ ("pkg-q", ["a"; "b"; "c"; "d"; "e"]) ].

Definition one_node_dag : dag :=
  {| nodes := [ ("a", node "completed") ]; edges := [] |}.

Definition five_node_dag : dag :=
  {| nodes := [ ("a", node "completed"); ("b", node "completed");
                ("c", node "pending"); ("d", node "pending"); ("e", node "pending") ];
     edges := [] |}.

(** Text of 7-bit characters only, on which [strip] and [title] are the
    methods of [str]; and text without carriage return, which reading a file
    leaves as it was written. *)
Fixpoint is_ascii (s : string) : bool :=
  match s with
  | EmptyString => true
  | String c rest => (nat_of_ascii c <? 128)%nat && is_ascii rest
  end.

Definition no_cr (s : string) : bool := negb (contains_char "013"%char s).

(** ** Lines of the workspace manifest *)

(** A text without line feed. *)
Fixpoint no_nl (s : string) : bool :=
  match s with
  | EmptyString => true
  | String c rest => negb (Ascii.eqb c "010"%char) && no_nl rest
  end.

(** The lines of [members_str], one per member; a single empty line when
    there is none. *)
Definition member_lines (members : list string) : list string :=
  match members with
  | [] => [EmptyString]
  | _ => map member_line members
  end.

(** What follows the member lines in every workspace manifest. *)
Definition after_members : string := line root_line ++ unlines workspace_tail.

(** ** Publish preparation: [update_cargo_toml] of [scripts/prepare_publish.py] *)

(** [w in s] for two strings. *)
Fixpoint contains (w s : string) : bool :=
  String.prefix w s ||
  match s with
  | EmptyString => false
  | String _ rest => contains w rest
  end.

(** The ASCII characters [str.strip] removes. *)
Definition is_space (c : ascii) : bool :=
  let n := nat_of_ascii c in
  (((9 <=? n) && (n <=? 13)) || ((28 <=? n) && (n <=? 32)))%nat.

Fixpoint lstrip (s : string) : string :=
  match s with
  | EmptyString => EmptyString
  | String c rest => if is_space c then lstrip rest else s
  end.

Fixpoint rstrip (s : string) : string :=
  match s with
  | EmptyString => EmptyString
  | String c rest =>
      match rstrip rest with
      | EmptyString => if is_space c then EmptyString else String c EmptyString
      | kept => String c kept
      end
  end.

(** [s.strip()] on text of 7-bit characters; [str.strip] also removes the
    white space beyond them, so the properties that rest on [strip] are
    stated for [is_ascii] text. *)
Definition strip (s : string) : string := lstrip (rstrip s).

Definition keywords_for (crate_name : string) : string :=
  if contains "core" crate_name then
    "keywords = [" ++ quoted "graph" ++ ", " ++ quoted "database" ++ ", " ++ quoted "gql"
                   ++ ", " ++ quoted "rewrite" ++ ", " ++ quoted "types" ++ "]"
  else if contains "graph" crate_name then
    "keywords = [" ++ quoted "graph" ++ ", " ++ quoted "data-structure" ++ ", "
                   ++ quoted "vertex" ++ ", " ++ quoted "edge" ++ "]"
  else if contains "storage" crate_name then
    "keywords = [" ++ quoted "storage" ++ ", " ++ quoted "persistence" ++ ", "
                   ++ quoted "mvcc" ++ ", " ++ quoted "merkle" ++ "]"
  else if contains "execution" crate_name then
    "keywords = [" ++ quoted "query" ++ ", " ++ quoted "execution" ++ ", "
                   ++ quoted "planner" ++ ", " ++ quoted "gql" ++ "]"
  else if contains "rewrite" crate_name then
    "keywords = [" ++ quoted "rewrite" ++ ", " ++ quoted "graph-transformation" ++ ", "
                   ++ quoted "dpo" ++ "]"
  else if contains "web" crate_name then
    "keywords = [" ++ quoted "web" ++ ", " ++ quoted "http" ++ ", "
                   ++ quoted "frontend" ++ ", " ++ quoted "framework" ++ "]"
  else
    "keywords = [" ++ quoted "graph" ++ ", " ++ quoted "database" ++ ", " ++ quoted "gql" ++ "]".

Definition categories_for (crate_name : string) : string :=
  if contains "core" crate_name || contains "graph" crate_name then
    "categories = [" ++ quoted "data-structures" ++ ", " ++ quoted "algorithms" ++ "]"
  else if contains "storage" crate_name then
    "categories = [" ++ quoted "database-implementations" ++ ", "
                     ++ quoted "data-structures" ++ "]"
  else if contains "execution" crate_name || contains "rewrite" crate_name then
    "categories = [" ++ quoted "algorithms" ++ ", "
                     ++ quoted "database-implementations" ++ "]"
  else if contains "web" crate_name then
    "categories = [" ++ quoted "web-programming" ++ ", " ++ quoted "api-bindings" ++ "]"
  else
    "categories = [" ++ quoted "database" ++ ", " ++ quoted "data-structures" ++ "]".

(** [if not has_field: updates.append(entry)] *)
Definition missing_field (field entry content : string) : list string :=
  if contains field content then [] else [entry].

Definition authors_entry : string :=
  "authors = [" ++ quoted "Jun Kawasaki <jun784@example.com>" ++ "]".

Definition readme_entry : string := "readme = " ++ quoted "README.md".

Definition documentation_entry (crate_name : string) : string :=
  "documentation = " ++ dq ++ "https://docs.rs/" ++ crate_name ++ dq.

Definition homepage_entry : string :=
  "homepage = " ++ quoted "https://github.com/com-junkawasaki/kotoba".

(** The list [updates] once the six tests have run. *)
Definition updates_for (content crate_name : string) : list string :=
  List.concat
    [ missing_field "authors" authors_entry content;
      missing_field "keywords" (keywords_for crate_name) content;
      missing_field "categories" (categories_for crate_name) content;
      missing_field "readme" readme_entry content;
      missing_field "documentation" (documentation_entry crate_name) content;
      missing_field "homepage" homepage_entry content ].

(** The inner loop: [lines_from] are the lines from index [j] on. *)
Fixpoint section_end (lines_from : list string) (j len_lines : Z) : Z :=
  match lines_from with
  | [] => -1
  | l :: rest =>
      if String.prefix "[" (strip l) && negb (String.eqb (strip l) "[package]") then j
      else if String.eqb (strip l) EmptyString && (j =? len_lines - 1) then j + 1
      else section_end rest (j + 1) len_lines
  end.

(** The outer loop, which stops at the first [[package]] line. *)
Fixpoint package_section_end_from (lines_from : list string) (i len_lines : Z) : Z :=
  match lines_from with
  | [] => -1
  | l :: rest =>
      if String.eqb (strip l) "[package]" then section_end rest (i + 1) len_lines
      else package_section_end_from rest (i + 1) len_lines
  end.

Definition package_section_end (lines : list string) : Z :=
  package_section_end_from lines 0 (Z.of_nat (length lines)).

(** What a call did: the four ways [update_cargo_toml] ends.  [Updated]
    carries the text written back to the file and the entries printed; the
    other three write nothing and print one message. *)
Inductive publish_outcome : Type :=
| FileNotFound
| Updated (new_content : string) (updates : list string)
| NoPackageSection
| AlreadyUpToDate.

(** [existing] is the text of [crate_path / "Cargo.toml"] as read, or [None]
    when the file does not exist; [crate_path] itself plays no other part. *)
Definition update_cargo_toml (existing : option string) (crate_name : string)
  : publish_outcome :=
  match existing with
  | None => FileNotFound
  | Some content =>
      let updates := updates_for content crate_name in
      match updates with
      | _ :: _ =>
          let lines := split "010"%char content in
          let package_section_end := package_section_end lines in
          if 0 <? package_section_end then
            let updated_lines :=
              (firstn (Z.to_nat package_section_end) lines
               ++ [EmptyString] ++ updates ++ [EmptyString]
               ++ skipn (Z.to_nat package_section_end) lines)%list in
            Updated (join nl updated_lines) updates
          else NoPackageSection
      | [] => AlreadyUpToDate
      end
  end.


(** A manifest with a package section and nothing else. *)
Definition small_manifest : string := line "[package]" ++ line "name = x".

(** The first eight lines of a generated manifest. *)
Definition package_lines (crate_name version part : string) : list string :=
  [ "[package]";
    "name = " ++ quoted crate_name;
    "version = " ++ quoted version;
    "edition = " ++ quoted "2021";
    "description = " ++ quoted ("Kotoba " ++ title part ++ " Components");
    "license = " ++ quoted "Apache-2.0";
    "repository = " ++ quoted "https://github.com/com-junkawasaki/kotoba";
    EmptyString ].

(** ** Tactics for concrete lists *)

(** Closes a goal from a membership in a concrete list that does not hold. *)
Ltac refute_membership H :=
  exfalso; vm_compute in H;
  repeat (destruct H as [H|H]; [discriminate H|]); exact H.

(** Proves [NoDup] of a list of distinct literals. *)
Ltac distinct_literals :=
  repeat (constructor;
          [ let Hin := fresh "Hin" in
            intros Hin; simpl in Hin;
            repeat (destruct Hin as [Hin|Hin]; [discriminate Hin|]); exact Hin
          | ]);
  constructor.

(** * Properties *)

(** ** Dictionaries and sets *)

Lemma dict_item_of_mem {V : Type} (d : dict V) (k : string) :
  dict_mem d k = true -> exists v, dict_item d k = Ok v /\ dict_get_default d k v = v.
Proof.
  unfold dict_mem, dict_item, dict_get_default.
  destruct (dict_get d k) as [v|]; [eauto | discriminate].
Qed.

Lemma dict_get_In {V : Type} (d : dict V) (k : string) (v : V) :
  dict_get d k = Some v -> In (k, v) d.
Proof.
  induction d as [|[k' v'] d IH]; simpl; [discriminate|].
  destruct (String.eqb_spec k k') as [->|Hne].
  - intros [= ->]. now left.
  - intros Hg. right. now apply IH.
Qed.


Lemma dict_get_first {V : Type} (d : dict V) (k : string) (v : V) :
  wf_dict d -> In (k, v) d -> dict_get d k = Some v.
Proof.
  unfold wf_dict, keys.
  induction d as [|[k' v'] d IH]; simpl; [tauto|].
  intros Hnd [Heq|Hin].
  - injection Heq as -> ->. now rewrite String.eqb_refl.
  - inversion Hnd as [|? ? Hnotin Hnd']; subst.
    destruct (String.eqb_spec k k') as [->|Hne].
    + exfalso. apply Hnotin. change k' with (fst (k', v)). now apply in_map.
    + now apply IH.
Qed.

Lemma list_mem_In (x : string) (l : list string) :
  list_mem x l = true <-> In x l.
Proof.
  unfold list_mem. rewrite existsb_exists. split.
  - intros (y & Hin & Heq). apply String.eqb_eq in Heq. now subst.
  - intros Hin. exists x. split; [exact Hin | apply String.eqb_refl].
Qed.

Section SetFacts.
Context `{SetOrder}.

Lemma set_iter_nil : set_iter [] = [].
Proof.
  destruct (set_iter []) as [|x l] eqn:E; [reflexivity|].
  exfalso. apply (proj1 (set_iter_In [] x)). rewrite E. now left.
Qed.

Lemma set_iter_only_nil (l : list string) : l = [] -> set_iter l = [].
Proof. intros ->. apply set_iter_nil. Qed.
End SetFacts.


(** ** Dependency resolver *)

Lemma owner_default (crate_mapping : crate_map) (component : string) :
  (forall p cs, In (p, cs) crate_mapping -> ~ In component cs) ->
  _get_crate_from_component crate_mapping component = "kotoba-core".
Proof.
  induction crate_mapping as [|[p cs] rest IH]; simpl; [reflexivity|].
  intros Hnone.
  destruct (list_mem component cs) eqn:E.
  - apply list_mem_In in E. exfalso. apply (Hnone p cs); auto.
  - apply IH. intros q ds Hin. apply (Hnone q ds). now right.
Qed.

Lemma owner_assigned (crate_mapping : crate_map) (component : string) :
  (exists p cs, In (p, cs) crate_mapping /\ In component cs) ->
  exists cs, In (_get_crate_from_component crate_mapping component, cs) crate_mapping
             /\ In component cs.
Proof.
  induction crate_mapping as [|[p cs] rest IH]; simpl.
  - intros (q & ds & [] & _).
  - intros (q & ds & Hin & Hc).
    destruct (list_mem component cs) eqn:E.
    + exists cs. split; [now left | now apply list_mem_In].
    + destruct IH as (es & Hes & Hces).
      * destruct Hin as [Heq|Hin].
        -- injection Heq as -> ->. apply list_mem_In in Hc. congruence.
        -- eauto.
      * exists es. split; [now right | exact Hces].
Qed.

(** In a disjoint partition a listed component is owned by the package that
    lists it. *)
Lemma owner_of_member (crate_mapping : crate_map) (p : string) (cs : list string) (c : string) :
  disjoint_partition crate_mapping ->
  In (p, cs) crate_mapping -> In c cs ->
  _get_crate_from_component crate_mapping c = p.
Proof.
  intros [_ Hdisj] Hin Hc.
  destruct (owner_assigned crate_mapping c) as (ds & Hds & Hcds); [eauto|].
  exact (Hdisj _ _ _ _ _ Hds Hin Hcds Hc).
Qed.

Lemma external_of_In (crate_mapping : crate_map) (crate_name : string)
      (all_deps : list string) (x : string) :
  In x (external_of crate_mapping crate_name all_deps) <->
  x <> crate_name /\
  exists dep, In dep all_deps /\ x = _get_crate_from_component crate_mapping dep.
Proof.
  induction all_deps as [|dep rest IH]; simpl.
  - split; [tauto | intros (_ & d & [] & _)].
  - destruct (String.eqb_spec (_get_crate_from_component crate_mapping dep) crate_name)
      as [Heq|Hne]; simpl.
    + rewrite IH. split.
      * intros (Hx & d & Hd & Hxd). eauto.
      * intros (Hx & d & [<-|Hd] & Hxd); [congruence | eauto].
    + rewrite IH. split.
      * intros [<-|(Hx & d & Hd & Hxd)]; eauto.
      * intros (Hx & d & [<-|Hd] & Hxd); [now left | right; eauto].
Qed.

Lemma collected_deps_In (dag_data : dag) (components : list string) (x : string) :
  In x (collected_deps dag_data components) <->
  exists e, In e (edges dag_data) /\ edge_from e = x
            /\ In (edge_to e) components
            /\ dict_mem (nodes dag_data) (edge_to e) = true.
Proof.
  unfold collected_deps. rewrite in_flat_map. split.
  - intros (comp & Hcomp & Hx).
    destruct (dict_mem (nodes dag_data) comp) eqn:Hm; [|destruct Hx].
    unfold producers in Hx. apply in_map_iff in Hx as (e & Hfrom & He).
    apply filter_In in He as (He & Hto). apply String.eqb_eq in Hto. subst comp.
    exists e. auto.
  - intros (e & He & Hfrom & Hto & Hm).
    exists (edge_to e). split; [exact Hto|]. rewrite Hm.
    unfold producers. apply in_map_iff. exists e. split; [exact Hfrom|].
    apply filter_In. split; [exact He | apply String.eqb_refl].
Qed.

(** What [_get_crate_dependencies] returns, with the key lookup resolved. *)
Lemma deps_shape `{SetOrder} (crate_mapping : crate_map) (dag_data : dag) (crate_name : string) :
  _get_crate_dependencies crate_mapping dag_data crate_name =
  Ok (if dict_mem crate_mapping crate_name
      then set_iter (external_of crate_mapping crate_name
                       (set_iter (collected_deps dag_data
                                    (dict_get_default crate_mapping crate_name []))))
      else []).
Proof.
  unfold _get_crate_dependencies, dict_mem, dict_item, dict_get_default.
  destruct (dict_get crate_mapping crate_name); reflexivity.
Qed.

Lemma order_kept_NoDup (l : list string) : NoDup (order_kept l).
Proof. apply NoDup_nodup. Qed.

Lemma order_kept_In (l : list string) (x : string) : In x (order_kept l) <-> In x l.
Proof. apply nodup_In. Qed.





(** Both are iteration orders of a set: the order of last insertion, and
    the descending order of the strings. *)
Definition kept_order : SetOrder :=
  {| set_iter := order_kept;
     set_iter_NoDup := order_kept_NoDup;
     set_iter_In := order_kept_In |}.


(** C1: for every package, [_get_crate_dependencies] returns a list that
    does not contain the package itself and has no repeated entry, whatever
    the edges of the graph are. *)
Theorem resolve_no_self_no_duplicates `{SetOrder}
        (crate_mapping : crate_map) (dag_data : dag) (crate_name : string) :
  exists deps,
    _get_crate_dependencies crate_mapping dag_data crate_name = Ok deps
    /\ ~ In crate_name deps
    /\ NoDup deps.
Proof.
  rewrite deps_shape. eexists. split; [reflexivity|].
  destruct (dict_mem crate_mapping crate_name).
  - split; [|apply set_iter_NoDup].
    intros Hin. apply set_iter_In, external_of_In in Hin as [Hne _]. now apply Hne.
  - split; [intros [] | constructor].
Qed.

(** Several edges from one package into another yield one entry: the result
    holds a package exactly when some collected producer is owned by it. *)
Lemma resolve_members `{SetOrder}
      (crate_mapping : crate_map) (dag_data : dag) (crate_name : string)
      (deps : list string) (x : string) :
  dict_mem crate_mapping crate_name = true ->
  _get_crate_dependencies crate_mapping dag_data crate_name = Ok deps ->
  (In x deps <->
   x <> crate_name /\
   exists e, In e (edges dag_data)
             /\ In (edge_to e) (dict_get_default crate_mapping crate_name [])
             /\ dict_mem (nodes dag_data) (edge_to e) = true
             /\ x = _get_crate_from_component crate_mapping (edge_from e)).
Proof.
  intros Hkey. rewrite deps_shape, Hkey. intros [= <-].
  rewrite set_iter_In, external_of_In. split.
  - intros (Hne & dep & Hdep & ->). split; [exact Hne|].
    apply set_iter_In, collected_deps_In in Hdep as (e & He & <- & Hto & Hm).
    exists e. auto.
  - intros (Hne & e & He & Hto & Hm & ->). split; [exact Hne|].
    exists (edge_from e). split; [|reflexivity].
    apply set_iter_In, collected_deps_In. exists e. auto.
Qed.

Lemma external_of_all_internal (crate_mapping : crate_map) (crate_name : string)
      (all_deps : list string) :
  (forall dep, In dep all_deps ->
               _get_crate_from_component crate_mapping dep = crate_name) ->
  external_of crate_mapping crate_name all_deps = [].
Proof.
  intros Hall.
  destruct (external_of crate_mapping crate_name all_deps) as [|x l] eqn:E; [reflexivity|].
  assert (Hx : In x (external_of crate_mapping crate_name all_deps))
    by (rewrite E; now left).
  apply external_of_In in Hx as (Hne & dep & Hdep & ->).
  exfalso. apply Hne. now apply Hall.
Qed.

Lemma resolve_empty_internal `{SetOrder}
      (crate_mapping : crate_map) (dag_data : dag) (crate_name : string) :
  (forall e, In e (edges dag_data) ->
             In (edge_to e) (dict_get_default crate_mapping crate_name []) ->
             _get_crate_from_component crate_mapping (edge_from e) = crate_name) ->
  _get_crate_dependencies crate_mapping dag_data crate_name = Ok [].
Proof.
  intros Hinternal. rewrite deps_shape.
  destruct (dict_mem crate_mapping crate_name); [|reflexivity].
  f_equal. apply set_iter_only_nil, external_of_all_internal.
  intros dep Hdep.
  apply set_iter_In, collected_deps_In in Hdep as (e & He & <- & Hto & _).
  now apply Hinternal.
Qed.

(** C6: when every edge into a component of the package comes from a
    component owned by that same package, the dependency list is empty. *)
Theorem resolve_empty_without_inbound `{SetOrder}
        (crate_mapping : crate_map) (dag_data : dag) (crate_name : string) :
  (forall e, In e (edges dag_data) ->
             In (edge_to e) (dict_get_default crate_mapping crate_name []) ->
             _get_crate_from_component crate_mapping (edge_from e) = crate_name) ->
  _get_crate_dependencies crate_mapping dag_data crate_name = Ok [].
Proof. apply resolve_empty_internal. Qed.

Lemma resolve_empty_without_inbound_witness :
  @_get_crate_dependencies kept_order builtin_crate_mapping builtin_dag_data "kotoba-core"
  = Ok [].
Proof.
  apply (@resolve_empty_without_inbound kept_order).
  intros e He Hto. unfold builtin_dag_data in He. simpl in He.
  repeat (destruct He as [<-|He]; [first [reflexivity | refute_membership Hto]|]).
  destruct He.
Defined.

(** In a disjoint partition, a package whose components are produced only by
    its own components has no dependency. *)
Corollary resolve_empty_mutual `{SetOrder}
          (crate_mapping : crate_map) (dag_data : dag)
          (crate_name : string) (components : list string) :
  disjoint_partition crate_mapping ->
  In (crate_name, components) crate_mapping ->
  (forall e, In e (edges dag_data) -> In (edge_to e) components ->
             In (edge_from e) components) ->
  _get_crate_dependencies crate_mapping dag_data crate_name = Ok [].
Proof.
  intros Hdisj Hin Hmutual.
  assert (Hget : dict_get_default crate_mapping crate_name [] = components).
  { unfold dict_get_default. now rewrite (dict_get_first _ _ _ (proj1 Hdisj) Hin). }
  apply resolve_empty_internal. rewrite Hget. intros e He Hto.
  apply (owner_of_member _ _ components); auto.
Qed.

(** C7: [_get_crate_from_component] answers for every component: a package
    that lists it when there is one, ['kotoba-core'] otherwise; and
    [_get_crate_dependencies] returns on every graph and partition. *)
Theorem lookup_total_resolver_never_raises `{SetOrder}
        (crate_mapping : crate_map) (dag_data : dag) (crate_name component : string) :
  ((forall p cs, In (p, cs) crate_mapping -> ~ In component cs) ->
   _get_crate_from_component crate_mapping component = "kotoba-core")
  /\ ((exists p cs, In (p, cs) crate_mapping /\ In component cs) ->
      exists cs, In (_get_crate_from_component crate_mapping component, cs) crate_mapping
                 /\ In component cs)
  /\ exists deps, _get_crate_dependencies crate_mapping dag_data crate_name = Ok deps.
Proof.
  split; [apply owner_default|]. split; [apply owner_assigned|].
  rewrite deps_shape. eauto.
Qed.

(** ** Edges to components that are not nodes *)

Lemma lookup_total_resolver_never_raises_witness :
  _get_crate_from_component builtin_crate_mapping "unlisted" = "kotoba-core"
  /\ exists deps,
      @_get_crate_dependencies kept_order builtin_crate_mapping builtin_dag_data
                               "kotoba-graph" = Ok deps.
Proof.
  destruct (@lookup_total_resolver_never_raises kept_order builtin_crate_mapping
              builtin_dag_data "kotoba-graph" "unlisted") as (Hdefault & _ & Hreturns).
  split; [|exact Hreturns].
  apply Hdefault. intros p cs Hin Hc. unfold builtin_crate_mapping in Hin. simpl in Hin.
  repeat (destruct Hin as [Heq|Hin]; [injection Heq as <- <-; refute_membership Hc|]).
  destruct Hin.
Defined.

Lemma filter_filter_implied {A : Type} (f g : A -> bool) (l : list A) :
  (forall x, f x = true -> g x = true) ->
  filter f (filter g l) = filter f l.
Proof.
  intros Himp. induction l as [|x l IH]; simpl; [reflexivity|].
  destruct (f x) eqn:Hf.
  - rewrite (Himp x Hf). simpl. rewrite Hf. now f_equal.
  - destruct (g x); simpl; [rewrite Hf|]; exact IH.
Qed.




(** ** Version policy: the counting loop *)

Lemma dict_item_Ok {V : Type} (d : dict V) (k : string) (v : V) :
  dict_item d k = Ok v <-> dict_get d k = Some v.
Proof.
  unfold dict_item. destruct (dict_get d k); split; congruence.
Qed.

Lemma count_loop_spec (dag_data : dag) (components : list string) (acc : Z * Z) :
  count_loop (nodes dag_data) components acc =
  Ok (fst acc + Z.of_nat (length (filter (is_completed dag_data)
                                         (counted dag_data components))),
      snd acc + Z.of_nat (length (counted dag_data components))).
Proof.
  revert acc. unfold counted.
  induction components as [|comp rest IH]; intros [c t]; simpl.
  - now rewrite !Z.add_0_r.
  - destruct (dict_mem (nodes dag_data) comp) eqn:Hm; [|apply IH].
    destruct (dict_item_of_mem _ _ Hm) as (nd & Hitem & _).
    rewrite Hitem. simpl. rewrite IH. simpl.
    apply dict_item_Ok in Hitem. unfold is_completed at 2. rewrite Hitem.
    destruct (status_completed nd); simpl; f_equal; f_equal; lia.
Qed.

Lemma counts_of_package (crate_mapping : crate_map) (dag_data : dag) (crate_name : string) :
  count_loop (nodes dag_data) (dict_get_default crate_mapping crate_name []) (0, 0)
  = Ok (completed_of crate_mapping dag_data crate_name,
        total_of crate_mapping dag_data crate_name).
Proof. rewrite count_loop_spec. reflexivity. Qed.

(** When every listed component is a node, all of them are counted. *)
Lemma total_of_declared (crate_mapping : crate_map) (dag_data : dag) (crate_name : string) :
  (forall comp, In comp (dict_get_default crate_mapping crate_name []) ->
                dict_mem (nodes dag_data) comp = true) ->
  total_of crate_mapping dag_data crate_name
  = Z.of_nat (length (dict_get_default crate_mapping crate_name [])).
Proof.
  intros Hall. unfold total_of, counted. f_equal. f_equal.
  induction (dict_get_default crate_mapping crate_name []) as [|comp rest IH];
    simpl; [reflexivity|].
  rewrite (Hall comp) by now left. f_equal. apply IH.
  intros c Hc. apply Hall. now right.
Qed.

Lemma completed_le_total (crate_mapping : crate_map) (dag_data : dag) (crate_name : string) :
  0 <= completed_of crate_mapping dag_data crate_name
    <= total_of crate_mapping dag_data crate_name.
Proof.
  unfold completed_of, total_of. split; [lia|].
  apply Nat2Z.inj_le, filter_length_le.
Qed.

Lemma version_zero_total
      (crate_mapping : crate_map) (dag_data : dag) (crate_name : string) :
  total_of crate_mapping dag_data crate_name = 0 ->
  _get_crate_version crate_mapping dag_data crate_name = Ok "0.1.0".
Proof.
  intros Hzero. unfold _get_crate_version.
  rewrite counts_of_package. simpl. now rewrite Hzero.
Qed.

(** C3, as the code has it: with no counted component the version is
    ["0.1.0"], and nothing is raised. *)
Theorem version_of_empty_package
        (crate_mapping : crate_map) (dag_data : dag) (crate_name : string) :
  total_of crate_mapping dag_data crate_name = 0 ->
  _get_crate_version crate_mapping dag_data crate_name = Ok "0.1.0".
Proof. apply version_zero_total. Qed.

Lemma version_of_empty_package_witness :
  _get_crate_version empty_mapping builtin_dag_data "kotoba-empty" = Ok "0.1.0".
Proof. apply version_of_empty_package. reflexivity. Defined.

(** A package with zero components gets the release version; no error. *)
Lemma empty_package_not_raised :
  dict_get empty_mapping "kotoba-empty" = Some []
  /\ _get_crate_version empty_mapping builtin_dag_data "kotoba-empty" = Ok "0.1.0"
  /\ (forall e, _get_crate_version empty_mapping builtin_dag_data "kotoba-empty"
                <> Raise e).
Proof. repeat split. intros e. vm_compute. discriminate. Qed.

(** C10: for a name that is not a key of the partition, the resolver returns
    the empty list and the version policy returns ["0.1.0"]. *)
Theorem unknown_package_defaults `{SetOrder}
        (crate_mapping : crate_map) (dag_data : dag) (crate_name : string) :
  dict_mem crate_mapping crate_name = false ->
  _get_crate_dependencies crate_mapping dag_data crate_name = Ok []
  /\ _get_crate_version crate_mapping dag_data crate_name = Ok "0.1.0".
Proof.
  intros Hkey. split.
  - rewrite deps_shape, Hkey. reflexivity.
  - apply version_zero_total.
    unfold total_of, dict_get_default. unfold dict_mem in Hkey.
    destruct (dict_get crate_mapping crate_name); [discriminate | reflexivity].
Qed.

Lemma unknown_package_defaults_witness :
  @_get_crate_dependencies kept_order builtin_crate_mapping builtin_dag_data "kotoba-web"
  = Ok []
  /\ _get_crate_version builtin_crate_mapping builtin_dag_data "kotoba-web" = Ok "0.1.0".
Proof. apply (@unknown_package_defaults kept_order). reflexivity. Defined.

(** ** Binary64 division and the two thresholds *)

Module FloatFacts.
Import Float.

Lemma digits2_pos_bounds (p : positive) :
  2 ^ (Z.pos (digits2_pos p) - 1) <= Z.pos p < 2 ^ Z.pos (digits2_pos p).
Proof.
  induction p as [p IH|p IH|]; simpl digits2_pos.
  - rewrite Pos2Z.inj_succ.
    replace (Z.succ (Z.pos (digits2_pos p)) - 1) with (Z.succ (Z.pos (digits2_pos p) - 1)) by lia.
    rewrite !Z.pow_succ_r by lia. lia.
  - rewrite Pos2Z.inj_succ.
    replace (Z.succ (Z.pos (digits2_pos p)) - 1) with (Z.succ (Z.pos (digits2_pos p) - 1)) by lia.
    rewrite !Z.pow_succ_r by lia. lia.
  - simpl. lia.
Qed.

Lemma digits2_pos_unique (p : positive) (k : Z) :
  2 ^ (k - 1) <= Z.pos p < 2 ^ k -> Z.pos (digits2_pos p) = k.
Proof.
  intros [Hlo Hhi]. pose proof (digits2_pos_bounds p) as [Hlo' Hhi'].
  assert (0 < k).
  { destruct (Z.ltb_spec 0 k); [assumption|].
    destruct (Z.eq_dec k 0) as [->|]; [simpl in Hhi; lia|].
    rewrite Z.pow_neg_r in Hhi by lia. lia. }
  destruct (Z.lt_trichotomy (Z.pos (digits2_pos p)) k) as [Hlt|[Heq|Hgt]]; [|exact Heq|].
  - assert (2 ^ Z.pos (digits2_pos p) <= 2 ^ (k - 1)) by (apply Z.pow_le_mono_r; lia). lia.
  - assert (2 ^ k <= 2 ^ (Z.pos (digits2_pos p) - 1)) by (apply Z.pow_le_mono_r; lia). lia.
Qed.

Lemma iter_xO_pow (m k : positive) :
  Z.pos (Pos.iter xO m k) = Z.pos m * 2 ^ Z.pos k.
Proof.
  revert m. induction k as [|k IH] using Pos.peano_ind; intros m.
  - simpl. lia.
  - rewrite Pos.iter_succ, Pos2Z.inj_succ, Z.pow_succ_r by lia.
    rewrite Pos2Z.inj_xO, IH. lia.
Qed.

Lemma fexp_normal (z : Z) : -1021 <= z -> fexp prec emax z = z - 53.
Proof. unfold fexp, emin, prec, emax. lia. Qed.


Lemma shr_fexp_fits (m : positive) (e : Z) (l : location) :
  Z.pos (digits2_pos m) = 53 -> -1074 <= e ->
  shr_fexp prec emax (Z.pos m) e l = (shr_record_of_loc (Z.pos m) l, e).
Proof.
  intros Hd He. unfold shr_fexp. cbn [Zdigits2]. rewrite Hd.
  replace (fexp prec emax (53 + e) - e) with 0
    by (unfold fexp, emin, prec, emax; lia).
  reflexivity.
Qed.

Lemma shr_fexp_carry (e : Z) :
  -1074 <= e ->
  shr_fexp prec emax (2 ^ 53) e loc_Exact
  = ({| shr_m := 2 ^ 52; shr_r := false; shr_s := false |}, e + 1).
Proof.
  intros He. unfold shr_fexp.
  change (Zdigits2 (2 ^ 53)) with 54.
  replace (fexp prec emax (54 + e) - e) with 1
    by (unfold fexp, emin, prec, emax; lia).
  reflexivity.
Qed.

Lemma round_exact (m : positive) (e : Z) :
  Z.pos (digits2_pos m) = 53 -> -1074 <= e <= 971 ->
  binary_round_aux prec emax false (Z.pos m) e loc_Exact = S754_finite false m e.
Proof.
  intros Hd He. unfold binary_round_aux.
  rewrite shr_fexp_fits by lia. cbn [shr_m shr_record_of_loc loc_of_shr_record round_nearest_even].
  rewrite shr_fexp_fits by lia. cbn [shr_m shr_record_of_loc].
  replace (e <=? emax - prec) with true
    by (symmetry; apply Z.leb_le; unfold emax, prec; lia).
  reflexivity.
Qed.

(** The last step of [binary_round_aux]: a rounded significand is stored,
    renormalised when it reached [2^53]. *)
Lemma round_finish (m e : Z) :
  2 ^ 52 <= m <= 2 ^ 53 -> -1074 <= e <= 970 ->
  (let '(mrs, e') := shr_fexp prec emax m e loc_Exact in
   match shr_m mrs with
   | Z0 => S754_zero false
   | Z.pos m' => if e' <=? emax - prec then S754_finite false m' e' else S754_infinity false
   | Z.neg _ => S754_nan
   end) = carry m e.
Proof.
  intros Hm He. unfold carry.
  destruct (Z.eqb_spec m (2 ^ 53)) as [->|Hne].
  - rewrite shr_fexp_carry by lia. cbn [shr_m].
    replace (e + 1 <=? emax - prec) with true
      by (symmetry; apply Z.leb_le; unfold emax, prec; lia).
    reflexivity.
  - destruct m as [|p|p]; try (exfalso; lia).
    rewrite shr_fexp_fits; [|apply digits2_pos_unique; change (53 - 1) with 52; lia|lia].
    cbn [shr_m shr_record_of_loc].
    replace (e <=? emax - prec) with true
      by (symmetry; apply Z.leb_le; unfold emax, prec; lia).
    reflexivity.
Qed.


(** [new_location d r] places the remainder [r] against half of [d]. *)
Lemma new_location_spec (d r : Z) :
  0 <= r < d ->
  new_location d r = if r =? 0 then loc_Exact else loc_Inexact (2 * r ?= d).
Proof.
  intros Hr. unfold new_location, new_location_even, new_location_odd.
  destruct (Z.even d) eqn:Hd; [reflexivity|].
  destruct (r =? 0); [reflexivity|]. f_equal.
  assert (Hodd : Z.odd d = true) by (rewrite <- Z.negb_even, Hd; reflexivity).
  apply Z.odd_spec in Hodd as [k ->].
  destruct (Z.compare_spec (2 * r + 1) (2 * k + 1));
    destruct (Z.compare_spec (2 * r) (2 * k + 1)); try reflexivity; exfalso; lia.
Qed.

Lemma round_quotient (n d : Z) :
  0 < d ->
  round_nearest_even (n / d) (new_location d (n mod d)) = rne_div n d.
Proof.
  intros Hd. pose proof (Z.mod_pos_bound n d Hd) as Hr.
  rewrite new_location_spec by exact Hr. unfold rne_div.
  destruct (Z.eqb_spec (n mod d) 0) as [Hz|Hnz]; [|reflexivity].
  rewrite Hz. simpl. destruct d; first [lia | reflexivity].
Qed.

Lemma halved_quotient (n d q' b : Z) :
  0 < d -> n / d = 2 * q' + b -> 0 <= b <= 1 ->
  n / (2 * d) = q' /\ n mod (2 * d) = b * d + n mod d.
Proof.
  intros Hd Hq Hb. pose proof (Z.mod_pos_bound n d Hd) as Hr.
  pose proof (Z.div_mod n d ltac:(lia)) as Hn. rewrite Hq in Hn.
  assert (Hrange : 0 <= b * d + n mod d < 2 * d) by nia.
  assert (Heq : n = 2 * d * q' + (b * d + n mod d)) by nia.
  split.
  - symmetry. apply (Z.div_unique n (2 * d) q' (b * d + n mod d)); [left; exact Hrange|exact Heq].
  - symmetry. apply (Z.mod_unique n (2 * d) q' (b * d + n mod d)); [left; exact Hrange|exact Heq].
Qed.

(** One more bit is shifted out of a quotient that has 54 bits. *)
Lemma round_shifted_quotient (n d : Z) :
  0 < d -> 0 < n / d ->
  let mrs := shr_1 (shr_record_of_loc (n / d) (new_location d (n mod d))) in
  round_nearest_even (shr_m mrs) (loc_of_shr_record mrs) = rne_div n (2 * d).
Proof.
  intros Hd Hq mrs. subst mrs.
  pose proof (Z.mod_pos_bound n d Hd) as Hr.
  rewrite new_location_spec by exact Hr. unfold rne_div.
  destruct (n / d) as [|p|p] eqn:Hquot; try lia.
  destruct p as [p|p|].
  - destruct (halved_quotient n d (Z.pos p) 1 Hd) as [-> ->]; [lia|lia|].
    destruct (Z.eqb_spec (n mod d) 0) as [Hz|Hnz].
    + rewrite Hz. replace (2 * (1 * d + 0) ?= 2 * d) with Eq
        by (symmetry; apply Z.compare_eq_iff; lia).
      reflexivity.
    + replace (2 * (1 * d + n mod d) ?= 2 * d) with Gt
        by (symmetry; apply Z.compare_gt_iff; lia).
      destruct (2 * (n mod d) ?= d); reflexivity.
  - destruct (halved_quotient n d (Z.pos p) 0 Hd) as [-> ->]; [lia|lia|].
    replace (2 * (0 * d + n mod d) ?= 2 * d) with Lt
      by (symmetry; apply Z.compare_lt_iff; lia).
    destruct (n mod d =? 0); [reflexivity|].
    destruct (2 * (n mod d) ?= d); reflexivity.
  - destruct (halved_quotient n d 0 1 Hd) as [-> ->]; [lia|lia|].
    destruct (Z.eqb_spec (n mod d) 0) as [Hz|Hnz].
    + rewrite Hz. replace (2 * (1 * d + 0) ?= 2 * d) with Eq
        by (symmetry; apply Z.compare_eq_iff; lia).
      reflexivity.
    + replace (2 * (1 * d + n mod d) ?= 2 * d) with Gt
        by (symmetry; apply Z.compare_gt_iff; lia).
      destruct (2 * (n mod d) ?= d); reflexivity.
Qed.


Lemma pow2_split (a b : Z) : 0 <= a -> 0 <= b -> 2 ^ (a + b) = 2 ^ a * 2 ^ b.
Proof. intros. now apply Z.pow_add_r. Qed.

(** [float(n)] is exact below [2^53]: the significand is [n] shifted to 53
    bits. *)
Lemma of_int_normal (n : Z) :
  0 < n < 2 ^ 53 ->
  exists (m : positive) (a : Z),
    of_int n = S754_finite false m (- a)
    /\ Z.pos (digits2_pos m) = 53
    /\ 0 <= a <= 52
    /\ Z.pos m = n * 2 ^ a.
Proof.
  intros Hn. destruct n as [|p|p]; try lia.
  pose proof (digits2_pos_bounds p) as Hp.
  set (d := Z.pos (digits2_pos p)) in *.
  assert (Hd : 1 <= d <= 53).
  { split; [subst d; lia|].
    destruct (Z.leb_spec d 53); [assumption|].
    assert (2 ^ 53 <= 2 ^ (d - 1)) by (apply Z.pow_le_mono_r; lia). lia. }
  unfold of_int, binary_normalize, binary_round, shl_align.
  fold d. rewrite Z.add_0_r, fexp_normal by lia.
  destruct (d - 53 - 0) as [|k|k] eqn:Hk; try lia.
  - exists p, 0. replace (- 0) with 0 by lia.
    assert (d = 53) by lia.
    rewrite round_exact by (subst d; lia).
    repeat split; lia.
  - assert (Hm : Z.pos (Pos.iter xO p k) = Z.pos p * 2 ^ (53 - d)).
    { rewrite iter_xO_pow. f_equal. f_equal. lia. }
    assert (Hpow : 2 ^ (d - 1) * 2 ^ (53 - d) = 2 ^ 52).
    { rewrite <- pow2_split by lia. f_equal. lia. }
    assert (Hpow' : 2 ^ d * 2 ^ (53 - d) = 2 ^ 53).
    { rewrite <- pow2_split by lia. f_equal. lia. }
    assert (0 < 2 ^ (53 - d)) by (apply Z.pow_pos_nonneg; lia).
    assert (Hdig : Z.pos (digits2_pos (Pos.iter xO p k)) = 53).
    { apply digits2_pos_unique. rewrite Hm. change (53 - 1) with 52. nia. }
    exists (Pos.iter xO p k), (53 - d).
    rewrite round_exact by (try exact Hdig; lia).
    repeat split; try lia. f_equal. lia.
Qed.

Lemma rne_div_bounds (n d : Z) : n / d <= rne_div n d <= n / d + 1.
Proof.
  unfold rne_div. destruct (2 * (n mod d) ?= d); [destruct (Z.even (n / d))| |]; lia.
Qed.

Lemma rne_div_scale (n d k : Z) :
  0 < d -> 0 < k -> rne_div (n * k) (d * k) = rne_div n d.
Proof.
  intros Hd Hk. unfold rne_div.
  rewrite Z.div_mul_cancel_r by lia.
  rewrite Z.mul_mod_distr_r by lia.
  replace (2 * (n mod d * k) ?= d * k) with (2 * (n mod d) ?= d); [reflexivity|].
  destruct (Z.compare_spec (2 * (n mod d)) d); symmetry.
  - apply Z.compare_eq_iff. nia.
  - apply Z.compare_lt_iff. nia.
  - apply Z.compare_gt_iff. nia.
Qed.

Lemma record_of_loc_m (m : Z) (l : location) : shr_m (shr_record_of_loc m l) = m.
Proof. destruct l as [|[]]; reflexivity. Qed.

Lemma loc_of_record_of_loc (m : Z) (l : location) :
  loc_of_shr_record (shr_record_of_loc m l) = l.
Proof. destruct l as [|[]]; reflexivity. Qed.

Lemma shr_fexp_shift (m : positive) (e : Z) (l : location) :
  Z.pos (digits2_pos m) = 54 -> -1074 <= e ->
  shr_fexp prec emax (Z.pos m) e l = (shr_1 (shr_record_of_loc (Z.pos m) l), e + 1).
Proof.
  intros Hd He. unfold shr_fexp. cbn [Zdigits2]. rewrite Hd.
  replace (fexp prec emax (54 + e) - e) with 1
    by (unfold fexp, emin, prec, emax; lia).
  reflexivity.
Qed.


Lemma quotient_range (m1 m2 : positive) :
  Z.pos (digits2_pos m1) = 53 -> Z.pos (digits2_pos m2) = 53 ->
  2 ^ 52 <= Z.pos m1 * 2 ^ 53 / Z.pos m2 < 2 ^ 54.
Proof.
  intros H1 H2.
  pose proof (digits2_pos_bounds m1) as B1. pose proof (digits2_pos_bounds m2) as B2.
  rewrite H1 in B1. rewrite H2 in B2. change (53 - 1) with 52 in *.
  split.
  - apply Z.div_le_lower_bound; lia.
  - apply Z.div_lt_upper_bound; lia.
Qed.

(** Division of two normal floats whose exponents are close: the quotient of
    the significands, taken with 53 or 54 bits, rounded to nearest even. *)
Lemma div_normal (m1 m2 : positive) (e1 e2 : Z) :
  Z.pos (digits2_pos m1) = 53 -> Z.pos (digits2_pos m2) = 53 ->
  -900 <= e1 - e2 <= 900 ->
  SFdiv prec emax (S754_finite false m1 e1) (S754_finite false m2 e2) =
  if Z.pos m1 * 2 ^ 53 / Z.pos m2 <? 2 ^ 53
  then carry (rne_div (Z.pos m1 * 2 ^ 53) (Z.pos m2)) (e1 - e2 - 53)
  else carry (rne_div (Z.pos m1 * 2 ^ 53) (2 * Z.pos m2)) (e1 - e2 - 52).
Proof.
  intros H1 H2 He.
  pose proof (quotient_range m1 m2 H1 H2) as Hq.
  unfold SFdiv, SFdiv_core_binary. cbn [Zdigits2 xorb]. rewrite H1, H2.
  replace (Z.min (fexp prec emax (53 + e1 - (53 + e2))) (e1 - e2)) with (e1 - e2 - 53)
    by (unfold fexp, emin, prec, emax; lia).
  replace (e1 - e2 - (e1 - e2 - 53)) with 53 by lia.
  cbv iota. rewrite Z.shiftl_mul_pow2 by lia.
  set (n := Z.pos m1 * 2 ^ 53) in *. set (d := Z.pos m2) in *.
  assert (Hd : 0 < d) by (subst d; lia).
  replace (Z.div_eucl n d) with (n / d, n mod d)
    by (unfold Z.div, Z.modulo; destruct (Z.div_eucl n d); reflexivity).
  unfold binary_round_aux.
  destruct (Z.ltb_spec (n / d) (2 ^ 53)) as [Hlt|Hge].
  - destruct (n / d) as [|q|q] eqn:Hquot; try lia.
    rewrite shr_fexp_fits;
      [|apply digits2_pos_unique; change (53 - 1) with 52; lia|lia].
    rewrite record_of_loc_m, loc_of_record_of_loc, <- Hquot, round_quotient by exact Hd.
    apply round_finish; [|lia].
    pose proof (rne_div_bounds n d). lia.
  - destruct (n / d) as [|q|q] eqn:Hquot; try lia.
    rewrite shr_fexp_shift;
      [|apply digits2_pos_unique; change (54 - 1) with 53; lia|lia].
    rewrite <- Hquot.
    rewrite (round_shifted_quotient n d Hd) by lia.
    replace (e1 - e2 - 53 + 1) with (e1 - e2 - 52) by lia.
    apply round_finish; [|lia].
    pose proof (rne_div_bounds n (2 * d)) as Hb.
    assert (Hhalf : 2 ^ 52 <= n / (2 * d) < 2 ^ 53).
    { rewrite (Z.mul_comm 2 d), <- Z.div_div by lia. rewrite Hquot.
      split; [apply Z.div_le_lower_bound; lia | apply Z.div_lt_upper_bound; lia]. }
    lia.
Qed.


Lemma floor_range (x d lo hi : Z) :
  0 < d -> lo <= x / d < hi -> lo * d <= x < hi * d.
Proof.
  intros Hd Hx. pose proof (Z.div_mod x d ltac:(lia)) as Hdm.
  pose proof (Z.mod_pos_bound x d Hd). nia.
Qed.

(** [c / t] for [0 < c <= t < 2^53]: the significand is the quotient scaled
    to 53 bits and rounded to nearest even. *)
Lemma truediv_spec (c t : Z) :
  0 < c <= t -> t < 2 ^ 53 ->
  exists K,
    52 <= K
    /\ 2 ^ 52 * t <= c * 2 ^ K < 2 ^ 53 * t
    /\ SFdiv prec emax (of_int c) (of_int t) = carry (rne_div (c * 2 ^ K) t) (- K).
Proof.
  intros Hc Ht.
  destruct (of_int_normal c) as (m1 & a1 & -> & Hd1 & Ha1 & Hm1); [lia|].
  destruct (of_int_normal t) as (m2 & a2 & -> & Hd2 & Ha2 & Hm2); [lia|].
  pose proof (digits2_pos_bounds m1) as B1. pose proof (digits2_pos_bounds m2) as B2.
  rewrite Hd1 in B1. rewrite Hd2 in B2. change (53 - 1) with 52 in *.
  assert (Hp2 : 0 < 2 ^ a2) by (apply Z.pow_pos_nonneg; lia).
  assert (Hord : a2 <= a1).
  { destruct (Z.leb_spec a2 a1); [assumption|exfalso].
    assert (2 ^ (a1 + 1) <= 2 ^ a2) by (apply Z.pow_le_mono_r; lia).
    rewrite Z.pow_add_r in * by lia. change (2 ^ 1) with 2 in *. nia. }
  pose proof (quotient_range m1 m2 Hd1 Hd2) as Hq.
  rewrite div_normal by (try assumption; lia).
  destruct (Z.ltb_spec (Z.pos m1 * 2 ^ 53 / Z.pos m2) (2 ^ 53)) as [Hlt|Hge].
  - exists (a1 - a2 + 53).
    assert (Hn : Z.pos m1 * 2 ^ 53 = c * 2 ^ (a1 - a2 + 53) * 2 ^ a2).
    { rewrite Hm1, <- !Z.mul_assoc, <- !Z.pow_add_r by lia. do 2 f_equal. lia. }
    rewrite Hn, Hm2 in *. rewrite Z.div_mul_cancel_r in * by lia.
    split; [lia|]. split.
    + pose proof (floor_range (c * 2 ^ (a1 - a2 + 53)) t (2 ^ 52) (2 ^ 53)). lia.
    + rewrite rne_div_scale by lia. f_equal. lia.
  - exists (a1 - a2 + 52).
    assert (Hn : Z.pos m1 * 2 ^ 53 = c * 2 ^ (a1 - a2 + 52) * (2 * 2 ^ a2)).
    { rewrite Hm1. change 2 with (2 ^ 1) at 4.
      rewrite <- !Z.mul_assoc, <- !Z.pow_add_r by lia. do 2 f_equal. lia. }
    assert (Hd : 2 * Z.pos m2 = t * (2 * 2 ^ a2)) by lia.
    assert (Hhalf : 2 ^ 52 <= Z.pos m1 * 2 ^ 53 / (2 * Z.pos m2) < 2 ^ 53).
    { rewrite (Z.mul_comm 2 (Z.pos m2)), <- Z.div_div by lia.
      split; [apply Z.div_le_lower_bound; lia | apply Z.div_lt_upper_bound; lia]. }
    rewrite Hd, Hn in *. rewrite Z.div_mul_cancel_r in Hhalf by lia.
    split; [lia|]. split.
    + pose proof (floor_range (c * 2 ^ (a1 - a2 + 52)) t (2 ^ 52) (2 ^ 53)). lia.
    + rewrite rne_div_scale by lia. f_equal. lia.
Qed.


(** Rounding to nearest even reaches an even bound exactly when the
    quotient is at least half a unit below it. *)
Lemma rne_div_ge_even (n d M : Z) :
  0 < d -> Z.even M = true ->
  (M <= rne_div n d <-> (2 * M - 1) * d <= 2 * n).
Proof.
  intros Hd HM. apply Z.even_spec in HM as [k ->].
  unfold rne_div.
  pose proof (Z.div_mod n d ltac:(lia)) as Hn.
  pose proof (Z.mod_pos_bound n d Hd) as Hr.
  set (q := n / d) in *. set (r := n mod d) in *.
  destruct (Z.compare_spec (2 * r) d) as [Heq|Hlt|Hgt].
  - destruct (Z.even q) eqn:Hq.
    + apply Z.even_spec in Hq as [j Hj]. split; intros; nia.
    + assert (Ho : Z.odd q = true) by (rewrite <- Z.negb_even, Hq; reflexivity).
      apply Z.odd_spec in Ho as [j Hj]. split; intros; nia.
  - split; intros; nia.
  - split; intros; nia.
Qed.

(** [x >= y] against a positive normal [y] of exponent [-53]. *)
Lemma ge_finite (m M : positive) (e : Z) :
  ge (S754_finite false m e) (S754_finite false M (-53)) = true
  <-> -53 < e \/ (e = -53 /\ Z.pos M <= Z.pos m).
Proof.
  unfold ge, SFleb, SFcompare.
  destruct (Z.compare_spec (-53) e) as [Heq|Hlt|Hgt].
  - change (Pos.compare_cont Eq M m) with (Z.pos M ?= Z.pos m).
    destruct (Z.compare_spec (Z.pos M) (Z.pos m)); split; intros; try lia; try discriminate.
  - split; intros; try lia; reflexivity.
  - split; intros; try lia; discriminate.
Qed.

Lemma ge_carry (m e : Z) (M : positive) :
  2 ^ 52 <= m <= 2 ^ 53 ->
  ge (carry m e) (S754_finite false M (-53)) = true
  <-> (m = 2 ^ 53 /\ (-54 < e \/ (e = -54 /\ Z.pos M <= 2 ^ 52)))
      \/ (m < 2 ^ 53 /\ (-53 < e \/ (e = -53 /\ Z.pos M <= m))).
Proof.
  intros Hm. unfold carry.
  destruct (Z.eqb_spec m (2 ^ 53)) as [->|Hne]; rewrite ge_finite.
  - change (Z.pos (Z.to_pos (2 ^ 52))) with (2 ^ 52). lia.
  - rewrite Z2Pos.id by lia. lia.
Qed.

Lemma pow2_ge (K k : Z) : 0 <= k <= K -> 2 ^ k <= 2 ^ K.
Proof. intros. apply Z.pow_le_mono_r; lia. Qed.

(** Which [K] the scaling can take, by the size of the quotient. *)
Lemma scale_cases (K : Z) :
  52 <= K -> K = 52 \/ K = 53 \/ K = 54 \/ 2 ^ 55 <= 2 ^ K.
Proof.
  intros HK. destruct (Z.eq_dec K 52); [auto|]. destruct (Z.eq_dec K 53); [auto|].
  destruct (Z.eq_dec K 54); [auto|]. do 3 right. apply pow2_ge. lia.
Qed.

Lemma div_zero_left (t : Z) :
  0 < t < 2 ^ 53 -> SFdiv prec emax (of_int 0) (of_int t) = S754_zero false.
Proof.
  intros Ht. destruct (of_int_normal t Ht) as (m & a & -> & _). reflexivity.
Qed.

(** The comparison of the rounded ratio with [0.8] is the comparison of the
    exact ratio with 4/5. *)
Lemma truediv_ge_0_8 (c t : Z) :
  0 <= c <= t -> 0 < t < 2 ^ 53 ->
  ge (SFdiv prec emax (of_int c) (of_int t)) lit_0_8 = (4 * t <=? 5 * c).
Proof.
  intros Hc Ht. destruct (Z.eq_dec c 0) as [->|Hnz].
  - rewrite div_zero_left by exact Ht. symmetry. apply Z.leb_gt. lia.
  - destruct (truediv_spec c t) as (K & HK & Hrange & ->); [lia|lia|].
    apply Bool.eq_iff_eq_true. rewrite Z.leb_le. unfold lit_0_8.
    pose proof (rne_div_bounds (c * 2 ^ K) t) as Hb.
    assert (Hfloor : 2 ^ 52 <= c * 2 ^ K / t < 2 ^ 53).
    { split; [apply Z.div_le_lower_bound; lia | apply Z.div_lt_upper_bound; lia]. }
    rewrite ge_carry by lia.
    pose proof (rne_div_ge_even (c * 2 ^ K) t (2 ^ 53) ltac:(lia) eq_refl) as Hcarry.
    pose proof (rne_div_ge_even (c * 2 ^ K) t 7205759403792794 ltac:(lia) eq_refl) as Hm.
    destruct (scale_cases K HK) as [->|[->|[->|Hbig]]].
    + change (2 ^ 52) with 4503599627370496 in *. change (2 ^ 53) with 9007199254740992 in *. lia.
    + change (2 ^ 52) with 4503599627370496 in *. change (2 ^ 53) with 9007199254740992 in *. lia.
    + change (2 ^ 52) with 4503599627370496 in *. change (2 ^ 53) with 9007199254740992 in *.
      change (2 ^ 54) with 18014398509481984 in *. lia.
    + assert (c * 2 ^ 55 <= c * 2 ^ K) by (apply Z.mul_le_mono_nonneg_l; lia).
      assert (K <> 52 /\ K <> 53 /\ K <> 54).
      { repeat split; intros ->; revert Hbig; compute; intros Hbig; apply Hbig; reflexivity. }
      change (2 ^ 52) with 4503599627370496 in *. change (2 ^ 53) with 9007199254740992 in *.
      change (2 ^ 55) with 36028797018963968 in *. lia.
Qed.


(** The comparison of the rounded ratio with [0.5] is the comparison of the
    exact ratio with 1/2. *)
Lemma truediv_ge_0_5 (c t : Z) :
  0 <= c <= t -> 0 < t < 2 ^ 53 ->
  ge (SFdiv prec emax (of_int c) (of_int t)) lit_0_5 = (t <=? 2 * c).
Proof.
  intros Hc Ht. destruct (Z.eq_dec c 0) as [->|Hnz].
  - rewrite div_zero_left by exact Ht. symmetry. apply Z.leb_gt. lia.
  - destruct (truediv_spec c t) as (K & HK & Hrange & ->); [lia|lia|].
    apply Bool.eq_iff_eq_true. rewrite Z.leb_le. unfold lit_0_5.
    pose proof (rne_div_bounds (c * 2 ^ K) t) as Hb.
    assert (Hfloor : 2 ^ 52 <= c * 2 ^ K / t < 2 ^ 53).
    { split; [apply Z.div_le_lower_bound; lia | apply Z.div_lt_upper_bound; lia]. }
    rewrite ge_carry by lia.
    pose proof (rne_div_ge_even (c * 2 ^ K) t (2 ^ 53) ltac:(lia) eq_refl) as Hcarry.
    destruct (scale_cases K HK) as [->|[->|[->|Hbig]]].
    + change (2 ^ 52) with 4503599627370496 in *. change (2 ^ 53) with 9007199254740992 in *. lia.
    + change (2 ^ 52) with 4503599627370496 in *. change (2 ^ 53) with 9007199254740992 in *. lia.
    + change (2 ^ 52) with 4503599627370496 in *. change (2 ^ 53) with 9007199254740992 in *.
      change (2 ^ 54) with 18014398509481984 in *. lia.
    + assert (c * 2 ^ 55 <= c * 2 ^ K) by (apply Z.mul_le_mono_nonneg_l; lia).
      assert (K <> 52 /\ K <> 53 /\ K <> 54).
      { repeat split; intros ->; revert Hbig; compute; intros Hbig; apply Hbig; reflexivity. }
      change (2 ^ 52) with 4503599627370496 in *. change (2 ^ 53) with 9007199254740992 in *.
      change (2 ^ 55) with 36028797018963968 in *. lia.
Qed.

End FloatFacts.

(** The literals are the floats nearest to 8/10 and 1/2. *)
Example lit_0_8_nearest : Float.truediv 8 10 = Ok Float.lit_0_8.
Proof. reflexivity. Qed.

Example lit_0_5_nearest : Float.truediv 1 2 = Ok Float.lit_0_5.
Proof. reflexivity. Qed.

(** ** Version policy: the classification *)

Lemma version_by_counts (crate_mapping : crate_map) (dag_data : dag) (crate_name : string) :
  let c := completed_of crate_mapping dag_data crate_name in
  let t := total_of crate_mapping dag_data crate_name in
  0 < t < 2 ^ 53 ->
  _get_crate_version crate_mapping dag_data crate_name =
  Ok (if 4 * t <=? 5 * c then "0.1.0"
      else if t <=? 2 * c then "0.1.0-alpha"
      else "0.1.0-dev").
Proof.
  intros c t Ht. unfold _get_crate_version.
  rewrite counts_of_package. cbn [bind fst snd]. fold c t.
  pose proof (completed_le_total crate_mapping dag_data crate_name) as Hc. fold c t in Hc.
  unfold Float.truediv.
  destruct (Z.eqb_spec t 0) as [Hz|_]; [lia|]. cbn [bind].
  rewrite FloatFacts.truediv_ge_0_8, FloatFacts.truediv_ge_0_5 by lia.
  destruct (4 * t <=? 5 * c), (t <=? 2 * c); reflexivity.
Qed.

(** C2, as the code has it: only the components of a package that are
    nodes of the graph are counted; for a package with at least one counted
    component (and fewer than [2^53] of them), the version follows the
    ratio [completed/total] of the counted components with inclusive lower
    bounds: ["0.1.0"] from 4/5 on, ["0.1.0-alpha"] from 1/2 on and below
    4/5, ["0.1.0-dev"] below 1/2. *)
Theorem version_thresholds (crate_mapping : crate_map) (dag_data : dag) (crate_name : string) :
  let c := completed_of crate_mapping dag_data crate_name in
  let t := total_of crate_mapping dag_data crate_name in
  0 < t -> t < 2 ^ 53 ->
  (4 * t <= 5 * c ->
   _get_crate_version crate_mapping dag_data crate_name = Ok "0.1.0")
  /\ (t <= 2 * c -> 5 * c < 4 * t ->
      _get_crate_version crate_mapping dag_data crate_name = Ok "0.1.0-alpha")
  /\ (2 * c < t ->
      _get_crate_version crate_mapping dag_data crate_name = Ok "0.1.0-dev").
Proof.
  intros c t Hpos Hlt.
  rewrite (version_by_counts crate_mapping dag_data crate_name) by (fold t; lia).
  fold c t.
  destruct (Z.leb_spec (4 * t) (5 * c)), (Z.leb_spec t (2 * c));
    repeat split; intros; first [reflexivity | lia].
Qed.

Lemma version_thresholds_witness :
  _get_crate_version boundary_mapping boundary_dag "pkg-high" = Ok "0.1.0"
  /\ _get_crate_version boundary_mapping boundary_dag "pkg-half" = Ok "0.1.0-alpha"
  /\ _get_crate_version builtin_crate_mapping builtin_dag_data "kotoba-server"
     = Ok "0.1.0-alpha".
Proof.
  split; [|split].
  - apply (version_thresholds boundary_mapping boundary_dag "pkg-high");
      vm_compute; first [reflexivity | discriminate].
  - apply (version_thresholds boundary_mapping boundary_dag "pkg-half");
      vm_compute; first [reflexivity | discriminate].
  - apply (version_thresholds builtin_crate_mapping builtin_dag_data "kotoba-server");
      vm_compute; first [reflexivity | discriminate].
Defined.

(** A package of five components, one of them completed, gets the release
    version when the four others are not nodes of the graph: its ratio over
    the listed components is 1/5, below 1/2. *)
Lemma version_skips_unlisted_nodes :
  0 < listed_total five_mapping "pkg-q"
  /\ 2 * listed_completed five_mapping one_node_dag "pkg-q"
     < listed_total five_mapping "pkg-q"
  /\ _get_crate_version five_mapping one_node_dag "pkg-q" = Ok "0.1.0"
  /\ _get_crate_version five_mapping one_node_dag "pkg-q" <> Ok "0.1.0-dev".
Proof. repeat split; try reflexivity. vm_compute. discriminate. Qed.

(** With the five listed components fixed, one more completed component
    moves the version from release to dev. *)
Lemma version_not_monotone_in_listed :
  listed_total five_mapping "pkg-q" = 5
  /\ listed_completed five_mapping one_node_dag "pkg-q" = 1
  /\ listed_completed five_mapping five_node_dag "pkg-q" = 2
  /\ _get_crate_version five_mapping one_node_dag "pkg-q" = Ok "0.1.0"
  /\ _get_crate_version five_mapping five_node_dag "pkg-q" = Ok "0.1.0-dev"
  /\ tier_of_version "0.1.0" = Some release
  /\ tier_of_version "0.1.0-dev" = Some dev
  /\ ~ tier_le release dev.
Proof. repeat split; try reflexivity. unfold tier_le. simpl. lia. Qed.

(** C5, as the code has it: with the number of counted components (those
    that are nodes of the graph) fixed, more completed components never
    give a lower tier. *)
Theorem version_monotone (crate_mapping : crate_map) (dag_data dag_data' : dag)
        (crate_name : string) :
  total_of crate_mapping dag_data crate_name = total_of crate_mapping dag_data' crate_name ->
  0 < total_of crate_mapping dag_data crate_name < 2 ^ 53 ->
  completed_of crate_mapping dag_data crate_name
    <= completed_of crate_mapping dag_data' crate_name ->
  exists v v' x y,
    _get_crate_version crate_mapping dag_data crate_name = Ok v
    /\ _get_crate_version crate_mapping dag_data' crate_name = Ok v'
    /\ tier_of_version v = Some x
    /\ tier_of_version v' = Some y
    /\ tier_le x y.
Proof.
  intros Htotal Hpos Hmore.
  rewrite (version_by_counts crate_mapping dag_data crate_name) by exact Hpos.
  rewrite (version_by_counts crate_mapping dag_data' crate_name) by (rewrite <- Htotal; exact Hpos).
  rewrite <- Htotal.
  set (t := total_of crate_mapping dag_data crate_name) in *.
  set (c := completed_of crate_mapping dag_data crate_name) in *.
  set (c' := completed_of crate_mapping dag_data' crate_name) in *.
  destruct (Z.leb_spec (4 * t) (5 * c)), (Z.leb_spec t (2 * c)),
           (Z.leb_spec (4 * t) (5 * c')), (Z.leb_spec t (2 * c'));
    try (exfalso; lia);
    do 4 eexists; (repeat split; try reflexivity; unfold tier_le; simpl; lia).
Qed.

Lemma version_monotone_witness :
  exists v v' x y,
    _get_crate_version boundary_mapping boundary_dag "pkg-half" = Ok v
    /\ _get_crate_version boundary_mapping boundary_dag_later "pkg-half" = Ok v'
    /\ tier_of_version v = Some x
    /\ tier_of_version v' = Some y
    /\ tier_le x y.
Proof.
  apply (version_monotone boundary_mapping boundary_dag boundary_dag_later "pkg-half");
    vm_compute; first [reflexivity | split; reflexivity | discriminate].
Defined.

(** ** Workspace manifest *)

Lemma append_assoc (a b c : string) : (a ++ b) ++ c = a ++ (b ++ c).
Proof. induction a as [|ch a IH]; simpl; [reflexivity | now rewrite IH]. Qed.

Lemma plain_no_nl (s : string) : plain s = true -> no_nl s = true.
Proof.
  induction s as [|c s IH]; simpl; [reflexivity|].
  intros H. apply andb_true_iff in H as [H1 H2]. apply andb_true_iff in H1 as [_ H1].
  rewrite H1. simpl. now apply IH.
Qed.

Lemma no_nl_app (a b : string) : no_nl (a ++ b) = no_nl a && no_nl b.
Proof.
  induction a as [|c a IH]; simpl; [reflexivity|].
  rewrite IH. now rewrite andb_assoc.
Qed.

Lemma split_line (s rest : string) :
  no_nl s = true ->
  split "010"%char (line s ++ rest) = s :: split "010"%char rest.
Proof.
  unfold line. induction s as [|c s IH]; simpl; intros Hs; [reflexivity|].
  apply andb_true_iff in Hs as [Hc Hs].
  destruct (Ascii.eqb c "010"%char); [discriminate|].
  now rewrite (IH Hs).
Qed.

Lemma member_line_no_nl (member : string) :
  plain member = true -> no_nl (member_line member) = true.
Proof.
  intros Hp. unfold member_line, quoted.
  rewrite !no_nl_app, (plain_no_nl _ Hp). reflexivity.
Qed.

Lemma split_members (members : list string) (rest : string) :
  Forall (fun m => plain m = true) members ->
  split "010"%char (line (join nl (map member_line members)) ++ rest)
  = (member_lines members ++ split "010"%char rest)%list.
Proof.
  intros Hall. induction Hall as [|m ms Hm Hms IH].
  - reflexivity.
  - destruct ms as [|m' ms].
    + change (join nl (map member_line [m])) with (member_line m).
      change (member_lines [m]) with [member_line m].
      apply split_line. now apply member_line_no_nl.
    + change (join nl (map member_line (m :: m' :: ms)))
        with (member_line m ++ nl ++ join nl (map member_line (m' :: ms))).
      change (member_lines (m :: m' :: ms))
        with (member_line m :: member_lines (m' :: ms)).
      unfold line in *. rewrite !append_assoc.
      rewrite <- (append_assoc (member_line m) nl).
      change (member_line m ++ nl) with (line (member_line m)).
      rewrite split_line by now apply member_line_no_nl.
      rewrite <- append_assoc, IH. reflexivity.
Qed.

Lemma until_close_app (body rest : list string) :
  Forall (fun l => String.eqb l "]" = false) body ->
  until_close (body ++ rest) = (body ++ until_close rest)%list.
Proof.
  intros Hbody. induction Hbody as [|l ls Hl Hls IH]; simpl; [reflexivity|].
  now rewrite Hl, IH.
Qed.

Lemma until_dq_plain (s rest : string) :
  plain s = true -> until_dq (s ++ dq ++ rest) = Some s.
Proof.
  induction s as [|c s IH]; intros Hp; [reflexivity|].
  cbn [plain] in Hp. cbn [until_dq append].
  apply andb_true_iff in Hp as [Hc Hp]. apply andb_true_iff in Hc as [Hc _].
  destruct (is_dq c); [discriminate|]. now rewrite (IH Hp).
Qed.

Lemma after_dq_member_line (member : string) :
  after_dq (member_line member) = Some (member ++ dq ++ ",").
Proof. unfold member_line, quoted. now rewrite !append_assoc. Qed.

Lemma quoted_item_member_line (member : string) :
  plain member = true -> quoted_item (member_line member) = [member].
Proof.
  intros Hp. unfold quoted_item.
  now rewrite after_dq_member_line, until_dq_plain.
Qed.

Lemma member_lines_open (members : list string) :
  Forall (fun l => String.eqb l "]" = false) (member_lines members).
Proof.
  destruct members as [|m ms]; [repeat constructor|].
  unfold member_lines. apply Forall_forall. intros l Hl.
  apply in_map_iff in Hl as (k & <- & _). reflexivity.
Qed.

Lemma quoted_items_member_lines (members : list string) :
  Forall (fun m => plain m = true) members ->
  flat_map quoted_item (member_lines members) = members.
Proof.
  intros Hall. destruct members as [|m ms]; [reflexivity|].
  unfold member_lines. induction Hall as [|k ks Hk Hks IH]; [reflexivity|].
  cbn [map flat_map]. rewrite (quoted_item_member_line k Hk), IH. reflexivity.
Qed.

Lemma workspace_manifest_lines (crate_mapping : crate_map) :
  Forall (fun m => plain m = true) (keys crate_mapping) ->
  manifest_members (generate_workspace_cargo_toml crate_mapping)
  = (keys crate_mapping ++ ["kotoba"])%list.
Proof.
  intros Hall. unfold manifest_members, generate_workspace_cargo_toml.
  fold after_members.
  rewrite split_line by reflexivity.
  rewrite split_line by reflexivity.
  rewrite split_members by exact Hall.
  change (after_open ("[workspace]" :: "members = [" :: ?l)) with l.
  cbn [after_open].
  change (split "010"%char after_members)
    with (root_line :: "]" :: split "010"%char (unlines (tl workspace_tail))).
  rewrite until_close_app by apply member_lines_open.
  rewrite flat_map_app, quoted_items_member_lines by exact Hall.
  reflexivity.
Qed.

Lemma builtin_wf : wf_dict builtin_crate_mapping.
Proof. unfold wf_dict, keys, builtin_crate_mapping. simpl. distinct_literals. Qed.

(** C9, as the code has it: the [members] array of the workspace manifest
    holds the keys of the partition in insertion order, followed by the root
    crate ["kotoba"]; every key other than the root's name occurs once, and
    a key that is the root's name occurs twice. *)
Theorem workspace_members_listed (crate_mapping : crate_map) :
  wf_dict crate_mapping ->
  Forall (fun m => plain m = true) (keys crate_mapping) ->
  manifest_members (generate_workspace_cargo_toml crate_mapping)
  = (keys crate_mapping ++ ["kotoba"])%list
  /\ (forall k, In k (keys crate_mapping) -> k <> "kotoba" ->
                count_occ string_dec
                          (manifest_members (generate_workspace_cargo_toml crate_mapping)) k
                = 1%nat)
  /\ (In "kotoba" (keys crate_mapping) ->
      count_occ string_dec
                (manifest_members (generate_workspace_cargo_toml crate_mapping)) "kotoba"
      = 2%nat).
Proof.
  intros Hwf Hplain. rewrite workspace_manifest_lines by exact Hplain.
  split; [reflexivity|]. split.
  - intros k Hk Hroot.
    assert (Hroot0 : count_occ string_dec ["kotoba"] k = 0%nat).
    { apply count_occ_not_In. intros [Heq|[]]. congruence. }
    rewrite count_occ_app, Hroot0, Nat.add_0_r. now apply NoDup_count_occ'.
  - intros Hk. rewrite count_occ_app.
    rewrite (proj1 (NoDup_count_occ' string_dec (keys crate_mapping)) Hwf "kotoba" Hk).
    reflexivity.
Qed.

Lemma workspace_members_listed_witness :
  (manifest_members (generate_workspace_cargo_toml builtin_crate_mapping)
   = (keys builtin_crate_mapping ++ ["kotoba"])%list
   /\ (forall k, In k (keys builtin_crate_mapping) -> k <> "kotoba" ->
                 count_occ string_dec
                           (manifest_members
                              (generate_workspace_cargo_toml builtin_crate_mapping)) k
                 = 1%nat)
   /\ (In "kotoba" (keys builtin_crate_mapping) ->
       count_occ string_dec
                 (manifest_members (generate_workspace_cargo_toml builtin_crate_mapping))
                 "kotoba"
       = 2%nat))
  /\ count_occ string_dec
               (manifest_members (generate_workspace_cargo_toml unhyphenated_mapping))
               "kotoba"
     = 2%nat.
Proof.
  split.
  - apply (workspace_members_listed builtin_crate_mapping).
    + exact builtin_wf.
    + repeat constructor.
  - apply (workspace_members_listed unhyphenated_mapping).
    + unfold wf_dict, keys, unhyphenated_mapping. simpl. distinct_literals.
    + repeat constructor.
    + simpl. tauto.
Defined.

(** The workspace manifest of the built-in partition has a member that is
    not a package of the partition. *)
Lemma workspace_lists_root_crate :
  manifest_members (generate_workspace_cargo_toml builtin_crate_mapping)
  <> keys builtin_crate_mapping
  /\ In "kotoba" (manifest_members (generate_workspace_cargo_toml builtin_crate_mapping))
  /\ ~ In "kotoba" (keys builtin_crate_mapping).
Proof.
  split; [|split].
  - vm_compute. discriminate.
  - vm_compute. tauto.
  - intros Hin. refute_membership Hin.
Qed.

(** ** Package manifests and the iteration order of sets *)







(** * Further properties of the resolver and the version policy *)

Lemma owner_in_partition (crate_mapping : crate_map) (component : string) :
  In (_get_crate_from_component crate_mapping component) (keys crate_mapping)
  \/ _get_crate_from_component crate_mapping component = "kotoba-core".
Proof.
  induction crate_mapping as [|[p cs] rest IH]; simpl; [now right|].
  destruct (list_mem component cs); [left; now left|].
  destruct IH as [Hin|Hdef]; [left; now right | now right].
Qed.

Lemma resolve_returns `{SetOrder}
      (crate_mapping : crate_map) (dag_data : dag) (crate_name : string) :
  exists deps, _get_crate_dependencies crate_mapping dag_data crate_name = Ok deps.
Proof. rewrite deps_shape. eauto. Qed.

(** X1: for a package of the partition the result holds exactly the owners,
    other than the package itself, of the producers of its components that
    are nodes of the graph. *)
Theorem resolve_exact `{SetOrder}
        (crate_mapping : crate_map) (dag_data : dag) (crate_name : string) :
  dict_mem crate_mapping crate_name = true ->
  exists deps,
    _get_crate_dependencies crate_mapping dag_data crate_name = Ok deps
    /\ forall x,
        In x deps <->
        x <> crate_name /\
        exists e, In e (edges dag_data)
                  /\ In (edge_to e) (dict_get_default crate_mapping crate_name [])
                  /\ dict_mem (nodes dag_data) (edge_to e) = true
                  /\ x = _get_crate_from_component crate_mapping (edge_from e).
Proof.
  intros Hkey.
  destruct (resolve_returns crate_mapping dag_data crate_name) as (deps & Hdeps).
  exists deps. split; [exact Hdeps|]. intros x.
  now apply (resolve_members crate_mapping dag_data crate_name deps x Hkey).
Qed.

Lemma resolve_exact_witness :
  exists deps,
    @_get_crate_dependencies kept_order builtin_crate_mapping builtin_dag_data "kotoba-graph"
    = Ok deps
    /\ forall x,
        In x deps <->
        x <> "kotoba-graph" /\
        exists e, In e (edges builtin_dag_data)
                  /\ In (edge_to e) (dict_get_default builtin_crate_mapping "kotoba-graph" [])
                  /\ dict_mem (nodes builtin_dag_data) (edge_to e) = true
                  /\ x = _get_crate_from_component builtin_crate_mapping (edge_from e).
Proof. apply (@resolve_exact kept_order). reflexivity. Defined.

(** X2: every returned dependency is a key of the partition or the default
    package name. *)
Theorem resolve_within_partition `{SetOrder}
        (crate_mapping : crate_map) (dag_data : dag) (crate_name : string) :
  exists deps,
    _get_crate_dependencies crate_mapping dag_data crate_name = Ok deps
    /\ forall x, In x deps -> In x (keys crate_mapping) \/ x = "kotoba-core".
Proof.
  rewrite deps_shape. eexists. split; [reflexivity|]. intros x Hx.
  destruct (dict_mem crate_mapping crate_name); [|destruct Hx].
  apply set_iter_In, external_of_In in Hx as (_ & dep & _ & ->).
  apply owner_in_partition.
Qed.

(** X3: with the same nodes, a graph with more edges gives every dependency
    the smaller graph gives. *)
Theorem resolve_monotone_in_edges `{SetOrder}
        (crate_mapping : crate_map) (dag_data dag_data' : dag) (crate_name : string) :
  nodes dag_data = nodes dag_data' ->
  incl (edges dag_data) (edges dag_data') ->
  exists deps deps',
    _get_crate_dependencies crate_mapping dag_data crate_name = Ok deps
    /\ _get_crate_dependencies crate_mapping dag_data' crate_name = Ok deps'
    /\ incl deps deps'.
Proof.
  intros Hnodes Hedges. rewrite !deps_shape. do 2 eexists.
  split; [reflexivity|]. split; [reflexivity|].
  destruct (dict_mem crate_mapping crate_name); [|intros x []].
  intros x Hx. apply set_iter_In, external_of_In in Hx as (Hne & dep & Hdep & ->).
  apply set_iter_In, external_of_In. split; [exact Hne|].
  exists dep. split; [|reflexivity].
  apply set_iter_In, collected_deps_In in Hdep as (e & He & Hfrom & Hto & Hm).
  apply set_iter_In, collected_deps_In. exists e.
  rewrite <- Hnodes. auto.
Qed.

Lemma resolve_monotone_in_edges_witness :
  exists deps deps',
    @_get_crate_dependencies kept_order fan_in_mapping single_edge_dag "kotoba-c" = Ok deps
    /\ @_get_crate_dependencies kept_order fan_in_mapping fan_in_dag "kotoba-c" = Ok deps'
    /\ incl deps deps'.
Proof.
  apply (@resolve_monotone_in_edges kept_order).
  - reflexivity.
  - intros e [<-|[]]. now left.
Defined.

Lemma flat_map_ext_In {A B : Type} (f g : A -> list B) (l : list A) :
  (forall a, In a l -> f a = g a) -> flat_map f l = flat_map g l.
Proof.
  intros Hext. induction l as [|a l IH]; simpl; [reflexivity|].
  rewrite (Hext a) by now left. f_equal. apply IH. intros b Hb. apply Hext. now right.
Qed.

Lemma producers_of_relevant (dag_data : dag) (components : list string) (comp : string) :
  In comp components ->
  producers dag_data comp
  = map edge_from
        (filter (fun e => String.eqb (edge_to e) comp)
                (filter (fun e => list_mem (edge_to e) components) (edges dag_data))).
Proof.
  intros Hin. unfold producers. f_equal. symmetry.
  apply filter_filter_implied. intros e He.
  apply String.eqb_eq in He. apply list_mem_In. now rewrite He.
Qed.

(** X16: the result depends only on the edges that end in a component of
    the package: two graphs with the same nodes and the same such edges give
    the same list, whatever their other edges are (one hop, no transitive
    closure). *)
Theorem resolve_single_hop `{SetOrder}
        (crate_mapping : crate_map) (dag_data dag_data' : dag) (crate_name : string) :
  nodes dag_data = nodes dag_data' ->
  filter (fun e => list_mem (edge_to e) (dict_get_default crate_mapping crate_name []))
         (edges dag_data)
  = filter (fun e => list_mem (edge_to e) (dict_get_default crate_mapping crate_name []))
           (edges dag_data') ->
  _get_crate_dependencies crate_mapping dag_data crate_name
  = _get_crate_dependencies crate_mapping dag_data' crate_name.
Proof.
  intros Hnodes Hedges. rewrite !deps_shape.
  destruct (dict_mem crate_mapping crate_name); [|reflexivity].
  do 4 f_equal. unfold collected_deps. apply flat_map_ext_In. intros comp Hcomp.
  rewrite <- Hnodes. destruct (dict_mem (nodes dag_data) comp); [|reflexivity].
  rewrite (producers_of_relevant dag_data _ comp Hcomp).
  rewrite (producers_of_relevant dag_data' _ comp Hcomp).
  now rewrite Hedges.
Qed.

Lemma resolve_single_hop_witness :
  @_get_crate_dependencies kept_order chain_mapping chain_dag "kotoba-c"
  = @_get_crate_dependencies kept_order chain_mapping last_hop_dag "kotoba-c".
Proof. apply (@resolve_single_hop kept_order); reflexivity. Defined.

(** X4: a component listed by several packages belongs to the first of them
    in the insertion order of the partition. *)
Theorem lookup_first_listing
        (before after : crate_map) (p : string) (cs : list string) (component : string) :
  (forall q ds, In (q, ds) before -> ~ In component ds) ->
  In component cs ->
  _get_crate_from_component (before ++ (p, cs) :: after)%list component = p.
Proof.
  intros Hbefore Hin. induction before as [|[q ds] before IH]; simpl.
  - apply list_mem_In in Hin. now rewrite Hin.
  - destruct (list_mem component ds) eqn:E.
    + apply list_mem_In in E. exfalso. apply (Hbefore q ds); [now left | exact E].
    + apply IH. intros q' ds' Hq. apply (Hbefore q' ds'). now right.
Qed.

Lemma lookup_first_listing_witness :
  _get_crate_from_component overlapping_mapping "b" = "pkg-x".
Proof.
  apply (lookup_first_listing [] [("pkg-y", ["b"; "c"])] "pkg-x" ["a"; "b"] "b").
  - intros q ds [].
  - simpl. tauto.
Defined.

Lemma Ok_inj {A : Type} (a b : A) : Ok a = Ok b -> a = b.
Proof. congruence. Qed.

Lemma version_in_three
      (crate_mapping : crate_map) (dag_data : dag) (crate_name : string) :
  exists v,
    _get_crate_version crate_mapping dag_data crate_name = Ok v
    /\ (v = "0.1.0" \/ v = "0.1.0-alpha" \/ v = "0.1.0-dev").
Proof.
  unfold _get_crate_version. rewrite counts_of_package. cbn [bind fst snd].
  unfold Float.truediv.
  destruct (total_of crate_mapping dag_data crate_name =? 0); [eauto|].
  cbn [bind].
  destruct (Float.ge _ Float.lit_0_8); [eauto|].
  destruct (Float.ge _ Float.lit_0_5); eauto.
Qed.

(** X5: [_get_crate_version] returns on every input, and the result is one
    of the three version strings: the division is never reached with a zero
    total, and a node is only read after its membership test. *)
Theorem version_always_returns
        (crate_mapping : crate_map) (dag_data : dag) (crate_name : string) :
  exists v,
    _get_crate_version crate_mapping dag_data crate_name = Ok v
    /\ (v = "0.1.0" \/ v = "0.1.0-alpha" \/ v = "0.1.0-dev").
Proof. apply version_in_three. Qed.

Lemma version_returns (crate_mapping : crate_map) (dag_data : dag) (crate_name : string) :
  exists v, _get_crate_version crate_mapping dag_data crate_name = Ok v.
Proof.
  unfold _get_crate_version. rewrite counts_of_package. cbn [bind fst snd].
  unfold Float.truediv.
  destruct (total_of crate_mapping dag_data crate_name =? 0); [eauto|].
  cbn [bind].
  destruct (Float.ge _ Float.lit_0_8); [eauto|].
  destruct (Float.ge _ Float.lit_0_5); eauto.
Qed.

Lemma counted_counted (dag_data : dag) (components : list string) :
  counted dag_data (counted dag_data components) = counted dag_data components.
Proof.
  unfold counted. induction components as [|c cs IH]; simpl; [reflexivity|].
  destruct (dict_mem (nodes dag_data) c) eqn:E; simpl; [rewrite E; now f_equal | exact IH].
Qed.

(** X6: components of a package that are not nodes of the graph do not
    count: listing only the components that are nodes gives the same
    version. *)
Theorem version_ignores_undeclared
        (crate_mapping crate_mapping' : crate_map) (dag_data : dag) (crate_name : string) :
  dict_get_default crate_mapping' crate_name []
  = counted dag_data (dict_get_default crate_mapping crate_name []) ->
  _get_crate_version crate_mapping' dag_data crate_name
  = _get_crate_version crate_mapping dag_data crate_name.
Proof.
  intros Hsame. unfold _get_crate_version.
  rewrite !count_loop_spec, Hsame, counted_counted. reflexivity.
Qed.

Lemma version_ignores_undeclared_witness :
  _get_crate_version declared_mapping dangling_dag "pkg-y"
  = _get_crate_version dangling_mapping dangling_dag "pkg-y".
Proof. apply version_ignores_undeclared. reflexivity. Defined.

(** ** The package manifest *)

Lemma split_without_separator (sep : ascii) (s : string) :
  contains_char sep s = false -> split sep s = [s].
Proof.
  induction s as [|c s IH]; simpl; [reflexivity|].
  intros Hc. apply orb_false_iff in Hc as [Hc Hs].
  rewrite Hc, (IH Hs). reflexivity.
Qed.

Lemma split_with_separator (sep : ascii) (s : string) :
  contains_char sep s = true -> exists a b rest, split sep s = a :: b :: rest.
Proof.
  induction s as [|c s IH]; simpl; [discriminate|].
  destruct (Ascii.eqb c sep); simpl.
  - intros _. destruct (split sep s) as [|w ws] eqn:E.
    + destruct s; simpl in E; [discriminate|].
      destruct (Ascii.eqb a sep); [discriminate|].
      destruct (split sep s); discriminate.
    + eauto.
  - intros Hs. destruct (IH Hs) as (a & b & rest & ->). eauto.
Qed.

Lemma common_deps_added (toml_content : string) :
  common_deps_loop common_deps toml_content = Ok (toml_content ++ common_block).
Proof.
  unfold common_deps, common_block. simpl. now rewrite !append_assoc.
Qed.

(** The loop over the dependencies appends to the text, and every
    non-empty dependency other than the package gets its entry. *)
Lemma internal_deps_added (crate_mapping : crate_map) (dag_data : dag)
      (crate_name : string) (dependencies : list string) (toml_content : string) :
  exists added,
    internal_deps_loop crate_mapping dag_data crate_name dependencies toml_content
    = Ok (toml_content ++ added)
    /\ forall dep, In dep dependencies -> dep <> EmptyString -> dep <> crate_name ->
                   exists v before after,
                     _get_crate_version crate_mapping dag_data dep = Ok v
                     /\ added = before ++ dependency_line dep v ++ after.
Proof.
  revert toml_content.
  induction dependencies as [|d ds IH]; intros toml_content; cbn [internal_deps_loop].
  - exists EmptyString. split; [f_equal; induction toml_content; simpl; congruence|].
    intros dep [].
  - destruct (nonempty d && negb (String.eqb d crate_name)) eqn:Hguard.
    + destruct (version_returns crate_mapping dag_data d) as (v & Hv).
      rewrite Hv. cbn [bind].
      destruct (IH (toml_content ++ dependency_line d v)) as (added & Hloop & Hentries).
      exists (dependency_line d v ++ added). split.
      * fold (dependency_line d v). rewrite Hloop. now rewrite append_assoc.
      * intros dep [<-|Hin] Hne Hself.
        -- exists v, EmptyString, added. split; [exact Hv | reflexivity].
        -- destruct (Hentries dep Hin Hne Hself) as (v' & before & after & Hv' & ->).
           exists v', (dependency_line d v ++ before), after.
           split; [exact Hv' | now rewrite append_assoc].
    + destruct (IH toml_content) as (added & Hloop & Hentries).
      exists added. split; [exact Hloop|].
      intros dep [<-|Hin] Hne Hself; [|now apply Hentries].
      exfalso. apply andb_false_iff in Hguard as [Hempty|Hsame].
      * destruct d; [now apply Hne | discriminate].
      * apply negb_false_iff, String.eqb_eq in Hsame. now apply Hself.
Qed.

Lemma generate_hyphen_cases `{SetOrder}
      (crate_mapping : crate_map) (dag_data : dag) (crate_name : string) :
  (contains_char "-"%char crate_name = false ->
   generate_cargo_toml crate_mapping dag_data crate_name = Raise IndexError)
  /\ (contains_char "-"%char crate_name = true ->
      exists text, generate_cargo_toml crate_mapping dag_data crate_name = Ok text).
Proof.
  unfold generate_cargo_toml.
  destruct (version_returns crate_mapping dag_data crate_name) as (v & ->).
  destruct (resolve_returns crate_mapping dag_data crate_name) as (deps & ->).
  cbn [bind]. unfold emit_cargo_toml, list_item. split; intros Hhyphen.
  - now rewrite (split_without_separator _ _ Hhyphen).
  - destruct (split_with_separator _ _ Hhyphen) as (a & b & rest & ->).
    cbn [nth_error bind]. rewrite common_deps_added. cbn [bind].
    destruct (internal_deps_added crate_mapping dag_data crate_name deps
                (package_header crate_name v b ++ common_block)) as (added & -> & _).
    cbn [bind]. eauto.
Qed.

(** X7: [generate_cargo_toml] raises [IndexError] exactly on a name without
    hyphen, and returns a manifest on every other name. *)
Theorem manifest_needs_hyphen `{SetOrder}
        (crate_mapping : crate_map) (dag_data : dag) (crate_name : string) :
  (contains_char "-"%char crate_name = false ->
   generate_cargo_toml crate_mapping dag_data crate_name = Raise IndexError)
  /\ (contains_char "-"%char crate_name = true ->
      exists text, generate_cargo_toml crate_mapping dag_data crate_name = Ok text).
Proof. apply generate_hyphen_cases. Qed.

Lemma manifest_needs_hyphen_witness :
  @generate_cargo_toml kept_order builtin_crate_mapping builtin_dag_data "kotoba"
  = Raise IndexError
  /\ exists text,
      @generate_cargo_toml kept_order builtin_crate_mapping builtin_dag_data "kotoba-core"
      = Ok text.
Proof.
  split.
  - apply (@manifest_needs_hyphen kept_order). reflexivity.
  - apply (@manifest_needs_hyphen kept_order). reflexivity.
Defined.

(** X8: a manifest has, for every dependency the resolver returns whose
    name is not empty, the entry that pairs it with the version computed for
    it on the same graph. *)
Theorem manifest_lists_dependency `{SetOrder}
        (crate_mapping : crate_map) (dag_data : dag) (crate_name : string)
        (text : string) (deps : list string) (dep : string) :
  generate_cargo_toml crate_mapping dag_data crate_name = Ok text ->
  _get_crate_dependencies crate_mapping dag_data crate_name = Ok deps ->
  In dep deps -> dep <> EmptyString ->
  exists v before after,
    _get_crate_version crate_mapping dag_data dep = Ok v
    /\ text = before ++ dependency_line dep v ++ after.
Proof.
  intros Hgen Hdeps Hin Hne. unfold generate_cargo_toml in Hgen.
  destruct (version_returns crate_mapping dag_data crate_name) as (v0 & Hv0).
  rewrite Hv0, Hdeps in Hgen. cbn [bind] in Hgen.
  unfold emit_cargo_toml, list_item in Hgen.
  destruct (nth_error (split "-"%char crate_name) 1) as [part|]; [|discriminate].
  cbn [bind] in Hgen. rewrite common_deps_added in Hgen. cbn [bind] in Hgen.
  destruct (internal_deps_added crate_mapping dag_data crate_name deps
              (package_header crate_name v0 part ++ common_block))
    as (added & Hloop & Hentries).
  rewrite Hloop in Hgen. cbn [bind] in Hgen.
  assert (Hself : dep <> crate_name).
  { rewrite deps_shape in Hdeps. injection Hdeps as <-.
    destruct (dict_mem crate_mapping crate_name); [|destruct Hin].
    apply set_iter_In, external_of_In in Hin as [Hself _]. exact Hself. }
  destruct (Hentries dep Hin Hne Hself) as (v & before & after & Hv & ->).
  exists v. apply Ok_inj in Hgen. subst text.
  destruct (list_mem crate_name ["kotoba-core"; "kotoba-graph"; "kotoba-server"]).
  - exists ((package_header crate_name v0 part ++ common_block) ++ before),
           (after ++ wasm_block ++ dev_block).
    split; [exact Hv | now rewrite !append_assoc].
  - exists ((package_header crate_name v0 part ++ common_block) ++ before),
           (after ++ dev_block).
    split; [exact Hv | now rewrite !append_assoc].
Qed.

Lemma manifest_lists_dependency_witness :
  exists text v before after,
    @generate_cargo_toml kept_order builtin_crate_mapping builtin_dag_data "kotoba-graph"
    = Ok text
    /\ _get_crate_version builtin_crate_mapping builtin_dag_data "kotoba-core" = Ok v
    /\ text = before ++ dependency_line "kotoba-core" v ++ after.
Proof.
  destruct (@generate_cargo_toml kept_order builtin_crate_mapping builtin_dag_data
              "kotoba-graph") as [text|e] eqn:Hgen; [|vm_compute in Hgen; discriminate].
  destruct (@manifest_lists_dependency kept_order builtin_crate_mapping builtin_dag_data
              "kotoba-graph" text ["kotoba-core"] "kotoba-core" Hgen)
    as (v & before & after & Hv & Htext).
  - reflexivity.
  - now left.
  - discriminate.
  - exists text, v, before, after. auto.
Defined.

(** ** Writing the crates *)

Lemma create_with_hyphen `{SetOrder}
      (crate_mapping : crate_map) (dag_data : dag) (crate_name : string) :
  contains_char "-"%char crate_name = true ->
  exists text part,
    generate_cargo_toml crate_mapping dag_data crate_name = Ok text
    /\ create_crate_structure crate_mapping dag_data crate_name
       = ([ Mkdir (child crates_dir crate_name) true true;
            WriteText (cargo_path crate_name) text;
            Mkdir (child (child crates_dir crate_name) "src") false true;
            WriteText (lib_path crate_name) (lib_content crate_name part);
            Print ("Created crate: " ++ crate_name) ], Ok tt).
Proof.
  intros Hhyphen.
  destruct (proj2 (generate_hyphen_cases crate_mapping dag_data crate_name) Hhyphen)
    as (text & Hgen).
  destruct (split_with_separator _ _ Hhyphen) as (a & part & rest & Hsplit).
  exists text, part. split; [exact Hgen|].
  unfold create_crate_structure, list_item. rewrite Hgen, Hsplit. reflexivity.
Qed.

Lemma create_without_hyphen `{SetOrder}
      (crate_mapping : crate_map) (dag_data : dag) (crate_name : string) :
  contains_char "-"%char crate_name = false ->
  create_crate_structure crate_mapping dag_data crate_name
  = ([ Mkdir (child crates_dir crate_name) true true ], Raise IndexError).
Proof.
  intros Hhyphen. unfold create_crate_structure.
  rewrite (proj1 (generate_hyphen_cases crate_mapping dag_data crate_name) Hhyphen).
  reflexivity.
Qed.

Lemma written_app (t1 t2 : list event) :
  written (t1 ++ t2) = (written t1 ++ written t2)%list.
Proof.
  induction t1 as [|[p a b|p c|m] t1 IH]; simpl; [reflexivity| |f_equal|]; exact IH.
Qed.

(** The files of a list of crates whose names all have a hyphen. *)
Lemma create_all_hyphenated `{SetOrder}
      (crate_mapping : crate_map) (dag_data : dag) (crate_names : list string) :
  Forall (fun k => contains_char "-"%char k = true) crate_names ->
  exists trace,
    create_all crate_mapping dag_data crate_names = (trace, Ok tt)
    /\ map fst (written trace) = crate_paths crate_names
    /\ forall p content,
        In (p, content) (written trace) ->
        exists k, In k crate_names
                  /\ ((p = cargo_path k
                       /\ generate_cargo_toml crate_mapping dag_data k = Ok content)
                      \/ p = lib_path k).
Proof.
  intros Hall. induction Hall as [|k ks Hk Hks IH].
  - exists []. repeat split. intros p content [].
  - destruct (create_with_hyphen crate_mapping dag_data k Hk) as (text & part & Hgen & Hcreate).
    destruct IH as (trace & Hrest & Hpaths & Hfiles).
    eexists. cbn [create_all]. rewrite Hcreate. unfold io_bind at 1. rewrite Hrest.
    split; [reflexivity|]. split.
    + cbn [written app map fst crate_paths flat_map]. f_equal. f_equal. exact Hpaths.
    + cbn [written app]. intros p content [Heq|[Heq|Hin]].
      * injection Heq as <- <-. exists k. split; [now left|]. left. auto.
      * injection Heq as <- <-. exists k. split; [now left|]. now right.
      * destruct (Hfiles p content Hin) as (k' & Hk' & Hcase).
        exists k'. split; [now right | exact Hcase].
Qed.

(** X9: when the name of every package has a hyphen, [run] returns; it
    writes, for each package in insertion order, its [Cargo.toml] and then
    its [src/lib.rs], and the workspace [Cargo.toml] last; the [Cargo.toml]
    of a package holds what [generate_cargo_toml] returns for it and the
    workspace file holds [generate_workspace_cargo_toml]. *)
Theorem run_writes_all_crates `{SetOrder} (crate_mapping : crate_map) (dag_data : dag) :
  Forall (fun k => contains_char "-"%char k = true) (keys crate_mapping) ->
  exists trace,
    run crate_mapping dag_data = (trace, Ok tt)
    /\ map fst (written trace)
       = (crate_paths (keys crate_mapping) ++ [child project_root "Cargo.toml"])%list
    /\ (forall k text, In (cargo_path k, text) (written trace) ->
                       generate_cargo_toml crate_mapping dag_data k = Ok text)
    /\ In (child project_root "Cargo.toml", generate_workspace_cargo_toml crate_mapping)
          (written trace).
Proof.
  intros Hall.
  destruct (create_all_hyphenated crate_mapping dag_data (keys crate_mapping) Hall)
    as (trace & Hloop & Hpaths & Hfiles).
  eexists. unfold run. unfold io_bind at 1. cbn [emit].
  unfold io_bind at 1. rewrite Hloop. cbn [io_bind emit app].
  split; [reflexivity|].
  cbn [written]. rewrite written_app. cbn [written].
  split; [|split].
  - rewrite map_app, Hpaths. reflexivity.
  - intros k text Hin. apply in_app_or in Hin as [Hin|[Heq|[]]].
    + destruct (Hfiles _ _ Hin) as (k' & _ & [[Hp Hgen]|Hp]).
      * injection Hp as ->. exact Hgen.
      * discriminate Hp.
    + discriminate Heq.
  - apply in_or_app. right. now left.
Qed.

Lemma run_writes_all_crates_witness :
  exists trace,
    @run kept_order builtin_crate_mapping builtin_dag_data = (trace, Ok tt)
    /\ map fst (written trace)
       = (crate_paths (keys builtin_crate_mapping) ++ [child project_root "Cargo.toml"])%list
    /\ (forall k text, In (cargo_path k, text) (written trace) ->
                       @generate_cargo_toml kept_order builtin_crate_mapping
                                            builtin_dag_data k = Ok text)
    /\ In (child project_root "Cargo.toml",
           generate_workspace_cargo_toml builtin_crate_mapping)
          (written trace).
Proof. apply (@run_writes_all_crates kept_order). repeat constructor. Defined.

Lemma create_all_stops `{SetOrder}
      (crate_mapping : crate_map) (dag_data : dag)
      (before after : list string) (crate_name : string) :
  Forall (fun k => contains_char "-"%char k = true) before ->
  contains_char "-"%char crate_name = false ->
  exists trace,
    create_all crate_mapping dag_data (before ++ crate_name :: after)%list
    = ((trace ++ [Mkdir (child crates_dir crate_name) true true])%list, Raise IndexError)
    /\ map fst (written trace) = crate_paths before.
Proof.
  intros Hall Hbad. induction Hall as [|k ks Hk Hks IH].
  - exists []. cbn [app create_all].
    rewrite (create_without_hyphen crate_mapping dag_data crate_name Hbad).
    split; reflexivity.
  - destruct (create_with_hyphen crate_mapping dag_data k Hk) as (text & part & Hgen & Hcreate).
    destruct IH as (trace & Hrest & Hpaths).
    eexists. change ((k :: ks) ++ crate_name :: after)%list
      with (k :: (ks ++ crate_name :: after))%list.
    cbn [create_all]. rewrite Hcreate. unfold io_bind at 1. rewrite Hrest.
    split.
    + rewrite app_assoc. reflexivity.
    + cbn [written app map fst crate_paths flat_map]. f_equal. f_equal. exact Hpaths.
Qed.

(** X10: at the first package whose name has no hyphen [run] raises
    [IndexError]: the files of the packages before it are written, the
    directory of the failing package is created and nothing after that is
    done; in particular the workspace [Cargo.toml] is not written. *)
Theorem run_stops_without_hyphen `{SetOrder}
        (crate_mapping : crate_map) (dag_data : dag)
        (before after : list string) (crate_name : string) :
  keys crate_mapping = (before ++ crate_name :: after)%list ->
  Forall (fun k => contains_char "-"%char k = true) before ->
  contains_char "-"%char crate_name = false ->
  exists trace,
    run crate_mapping dag_data
    = ((trace ++ [Mkdir (child crates_dir crate_name) true true])%list, Raise IndexError)
    /\ map fst (written (trace ++ [Mkdir (child crates_dir crate_name) true true]))
       = crate_paths before
    /\ ~ In (child project_root "Cargo.toml")
            (map fst (written (trace ++ [Mkdir (child crates_dir crate_name) true true]))).
Proof.
  intros Hkeys Hall Hbad.
  destruct (create_all_stops crate_mapping dag_data before after crate_name Hall Hbad)
    as (trace & Hloop & Hpaths).
  exists (Print "Generating Kotoba multi-crate structure..." :: trace).
  unfold run. unfold io_bind at 1. cbn [emit].
  unfold io_bind at 1. rewrite Hkeys, Hloop.
  split; [reflexivity|].
  assert (Hw : map fst (written ((Print "Generating Kotoba multi-crate structure..." :: trace)
                                   ++ [Mkdir (child crates_dir crate_name) true true]))
               = crate_paths before).
  { cbn [app written]. rewrite written_app. cbn [written].
    now rewrite app_nil_r. }
  split; [exact Hw|]. rewrite Hw. unfold crate_paths. intros Hin.
  apply in_flat_map in Hin as (k & _ & [Heq|[Heq|[]]]); discriminate Heq.
Qed.

Lemma run_stops_without_hyphen_witness :
  exists trace,
    @run kept_order unhyphenated_mapping fan_in_dag
    = ((trace ++ [Mkdir (child crates_dir "kotoba") true true])%list, Raise IndexError)
    /\ map fst (written (trace ++ [Mkdir (child crates_dir "kotoba") true true]))
       = crate_paths ["kotoba-a"]
    /\ ~ In (child project_root "Cargo.toml")
            (map fst (written (trace ++ [Mkdir (child crates_dir "kotoba") true true]))).
Proof.
  apply (@run_stops_without_hyphen kept_order unhyphenated_mapping fan_in_dag
           ["kotoba-a"] ["kotoba-c"] "kotoba").
  - reflexivity.
  - repeat constructor.
  - reflexivity.
Defined.

(** * Publish preparation *)


Lemma append_nil_r (s : string) : s ++ EmptyString = s.
Proof. induction s as [|c s IH]; simpl; congruence. Qed.

Lemma prefix_spec (w s : string) :
  String.prefix w s = true <-> exists b, s = w ++ b.
Proof.
  revert s. induction w as [|c w IH]; intros s.
  - split; [intros _; now exists s | intros _; destruct s; reflexivity].
  - destruct s as [|c' s]; [split; [discriminate | intros (b & Hb); discriminate]|].
    cbn [String.prefix append].
    destruct (ascii_dec c c') as [->|Hne].
    + rewrite IH. split; intros (b & Hb); exists b; congruence.
    + split; [discriminate | intros (b & Hb); congruence].
Qed.

(** [contains w s] holds exactly when [w] occurs in [s]. *)
Lemma contains_spec (w s : string) :
  contains w s = true <-> exists a b, s = a ++ w ++ b.
Proof.
  induction s as [|c s IH].
  - cbn [contains]. rewrite orb_false_r, prefix_spec. split.
    + intros (b & Hb). now exists EmptyString, b.
    + intros (a & b & Hab). destruct a; [now exists b | discriminate].
  - cbn [contains]. rewrite orb_true_iff, prefix_spec, IH. split.
    + intros [(b & Hb)|(a & b & Hab)].
      * now exists EmptyString, b.
      * exists (String c a), b. simpl. congruence.
    + intros (a & b & Hab). destruct a as [|c' a].
      * left. now exists b.
      * right. exists a, b. simpl in Hab. congruence.
Qed.

Lemma split_cons (sep : ascii) (s : string) :
  exists hd tl, split sep s = hd :: tl.
Proof.
  induction s as [|c s (hd & tl & IH)]; simpl; [eauto|].
  destruct (Ascii.eqb c sep); [eauto | rewrite IH; eauto].
Qed.

Lemma split_app_no_nl (w b : string) :
  no_nl w = true ->
  exists hd tl, split "010"%char b = hd :: tl
                /\ split "010"%char (w ++ b) = (w ++ hd) :: tl.
Proof.
  intros Hw. destruct (split_cons "010"%char b) as (hd & tl & Hb).
  exists hd, tl. split; [exact Hb|].
  induction w as [|c w IH]; [exact Hb|].
  cbn [no_nl] in Hw. apply andb_true_iff in Hw as [Hc Hw].
  cbn [append split]. destruct (Ascii.eqb c "010"%char); [discriminate|].
  now rewrite (IH Hw).
Qed.

(** A text without line feed that occurs in [s] occurs in one of its lines. *)
Lemma occurrence_in_line (w s : string) :
  no_nl w = true -> contains w s = true ->
  exists l, In l (split "010"%char s) /\ contains w l = true.
Proof.
  intros Hw Hs. apply contains_spec in Hs as (a & b & ->).
  induction a as [|c a IH].
  - destruct (split_app_no_nl w b Hw) as (hd & tl & _ & Hsplit).
    cbn [append]. rewrite Hsplit. exists (w ++ hd). split; [now left|].
    apply contains_spec. now exists EmptyString, hd.
  - destruct IH as (l & Hl & Hwl). cbn [append split].
    destruct (Ascii.eqb c "010"%char); [exists l; split; [now right | exact Hwl]|].
    destruct (split "010"%char (a ++ w ++ b)) as [|hd tl]; [destruct Hl|].
    destruct Hl as [<-|Hl].
    + exists (String c hd). split; [now left|].
      cbn [contains]. rewrite Hwl. apply orb_true_r.
    + exists l. split; [now right | exact Hwl].
Qed.

Lemma join_occurrence (sep : string) (ls : list string) (l : string) :
  In l ls -> exists a b, join sep ls = a ++ l ++ b.
Proof.
  induction ls as [|x ls IH]; [intros []|].
  intros [->|Hin].
  - exists EmptyString. destruct ls as [|y ls].
    + exists EmptyString. simpl. now rewrite append_nil_r.
    + now exists (sep ++ join sep (y :: ls)).
  - destruct (IH Hin) as (a & b & Hab).
    destruct ls as [|y ls]; [destruct Hin|].
    exists (x ++ sep ++ a), b.
    change (join sep (x :: y :: ls)) with (x ++ sep ++ join sep (y :: ls)).
    now rewrite Hab, !append_assoc.
Qed.

Lemma contains_in_join (w l : string) (ls : list string) :
  In l ls -> contains w l = true -> contains w (join nl ls) = true.
Proof.
  intros Hin Hw. apply contains_spec in Hw as (a & b & ->).
  destruct (join_occurrence nl ls _ Hin) as (a' & b' & ->).
  apply contains_spec. exists (a' ++ a), (b ++ b'). now rewrite !append_assoc.
Qed.

Lemma keywords_entry (crate_name : string) :
  contains "keywords" (keywords_for crate_name) = true.
Proof.
  unfold keywords_for.
  repeat match goal with |- context [if ?b then _ else _] => destruct b end; reflexivity.
Qed.

Lemma categories_entry (crate_name : string) :
  contains "categories" (categories_for crate_name) = true.
Proof.
  unfold categories_for.
  repeat match goal with |- context [if ?b then _ else _] => destruct b end; reflexivity.
Qed.

(** After the insertion a field is in the text: it was there, or its entry
    has been added. *)
Lemma field_after_update (field entry content : string)
      (before middle after : list string) :
  no_nl field = true ->
  contains field entry = true ->
  (forall l, In l (split "010"%char content) -> In l (before ++ after)) ->
  (forall l, In l (missing_field field entry content) -> In l middle) ->
  contains field (join nl (before ++ [EmptyString] ++ middle ++ [EmptyString] ++ after))
  = true.
Proof.
  intros Hnl Hentry Hlines Hmiddle. unfold missing_field in Hmiddle.
  destruct (contains field content) eqn:Hhas.
  - destruct (occurrence_in_line field content Hnl Hhas) as (l & Hl & Hwl).
    apply (contains_in_join field l); [|exact Hwl].
    apply Hlines in Hl. apply in_app_or in Hl as [Hl|Hl].
    + apply in_or_app. now left.
    + apply in_or_app. right. cbn [app]. right. apply in_or_app. right. now right.
  - apply (contains_in_join field entry); [|exact Hentry].
    apply in_or_app. right. cbn [app]. right. apply in_or_app. left.
    apply Hmiddle. now left.
Qed.

Lemma update_shape (content crate_name new_content : string) (updates : list string) :
  update_cargo_toml (Some content) crate_name = Updated new_content updates ->
  updates = updates_for content crate_name
  /\ 0 < package_section_end (split "010"%char content)
  /\ new_content
     = join nl (firstn (Z.to_nat (package_section_end (split "010"%char content)))
                       (split "010"%char content)
                ++ [EmptyString] ++ updates ++ [EmptyString]
                ++ skipn (Z.to_nat (package_section_end (split "010"%char content)))
                         (split "010"%char content))%list.
Proof.
  unfold update_cargo_toml.
  destruct (updates_for content crate_name) as [|u us] eqn:Hups; [discriminate|].
  destruct (Z.ltb_spec 0 (package_section_end (split "010"%char content)));
    [|discriminate].
  intros [= <- <-]. auto.
Qed.

(** X11: a second run on the text the first run wrote finds every field
    and adds nothing. *)
Theorem update_twice_adds_nothing (content crate_name new_content : string)
        (updates : list string) :
  update_cargo_toml (Some content) crate_name = Updated new_content updates ->
  update_cargo_toml (Some new_content) crate_name = AlreadyUpToDate.
Proof.
  intros Hfirst. apply update_shape in Hfirst as (Hups & _ & ->).
  set (k := Z.to_nat (package_section_end (split "010"%char content))).
  assert (Hlines : forall l, In l (split "010"%char content) ->
                             In l (firstn k (split "010"%char content)
                                   ++ skipn k (split "010"%char content))).
  { intros l. now rewrite firstn_skipn. }
  assert (Hin : forall field entry,
             In (missing_field field entry content)
                [ missing_field "authors" authors_entry content;
                  missing_field "keywords" (keywords_for crate_name) content;
                  missing_field "categories" (categories_for crate_name) content;
                  missing_field "readme" readme_entry content;
                  missing_field "documentation" (documentation_entry crate_name) content;
                  missing_field "homepage" homepage_entry content ] ->
             forall l, In l (missing_field field entry content) -> In l updates).
  { intros field entry Hmem l Hl. rewrite Hups. unfold updates_for.
    apply in_concat. eauto. }
  unfold update_cargo_toml, updates_for, missing_field at 1 2 3 4 5 6.
  rewrite (field_after_update "authors" authors_entry content);
    [|reflexivity|reflexivity|exact Hlines|apply Hin; simpl; tauto].
  rewrite (field_after_update "keywords" (keywords_for crate_name) content);
    [|reflexivity|apply keywords_entry|exact Hlines|apply Hin; simpl; tauto].
  rewrite (field_after_update "categories" (categories_for crate_name) content);
    [|reflexivity|apply categories_entry|exact Hlines|apply Hin; simpl; tauto].
  rewrite (field_after_update "readme" readme_entry content);
    [|reflexivity|reflexivity|exact Hlines|apply Hin; simpl; tauto].
  rewrite (field_after_update "documentation" (documentation_entry crate_name) content);
    [|reflexivity|reflexivity|exact Hlines|apply Hin; simpl; tauto].
  rewrite (field_after_update "homepage" homepage_entry content);
    [|reflexivity|reflexivity|exact Hlines|apply Hin; simpl; tauto].
  reflexivity.
Qed.

Lemma update_twice_adds_nothing_witness :
  exists new_content updates,
    update_cargo_toml (Some small_manifest) "kotoba-graph" = Updated new_content updates
    /\ update_cargo_toml (Some new_content) "kotoba-graph" = AlreadyUpToDate.
Proof.
  do 2 eexists. split; [reflexivity|].
  eapply (update_twice_adds_nothing small_manifest "kotoba-graph"). reflexivity.
Defined.

Lemma split_lines_no_nl (s : string) :
  Forall (fun l => no_nl l = true) (split "010"%char s).
Proof.
  induction s as [|c s IH]; cbn [split]; [repeat constructor|].
  destruct (Ascii.eqb c "010"%char) eqn:Hc; [now constructor|].
  destruct (split "010"%char s) as [|w ws]; [repeat constructor; cbn; now rewrite Hc|].
  inversion IH as [|? ? Hw Hws]; subst. constructor; [|exact Hws].
  cbn [no_nl]. now rewrite Hc, Hw.
Qed.

Lemma split_join (ls : list string) :
  ls <> [] -> Forall (fun l => no_nl l = true) ls ->
  split "010"%char (join nl ls) = ls.
Proof.
  intros Hne Hall. induction Hall as [|l ls Hl Hls IH]; [congruence|].
  destruct ls as [|l' ls].
  - cbn [join]. rewrite <- (append_nil_r l) at 1.
    destruct (split_app_no_nl l EmptyString Hl) as (hd & tl & Hnil & ->).
    cbn in Hnil. injection Hnil as <- <-. now rewrite append_nil_r.
  - change (join nl (l :: l' :: ls)) with (l ++ nl ++ join nl (l' :: ls)).
    rewrite <- append_assoc. change (l ++ nl) with (line l).
    rewrite split_line by exact Hl. f_equal. apply IH. discriminate.
Qed.

Lemma missing_field_no_nl (field entry content : string) :
  no_nl entry = true ->
  Forall (fun l => no_nl l = true) (missing_field field entry content).
Proof.
  intros He. unfold missing_field. destruct (contains field content); repeat constructor.
  exact He.
Qed.

Lemma keywords_no_nl (crate_name : string) : no_nl (keywords_for crate_name) = true.
Proof.
  unfold keywords_for.
  repeat match goal with |- context [if ?b then _ else _] => destruct b end; reflexivity.
Qed.

Lemma categories_no_nl (crate_name : string) : no_nl (categories_for crate_name) = true.
Proof.
  unfold categories_for.
  repeat match goal with |- context [if ?b then _ else _] => destruct b end; reflexivity.
Qed.

Lemma updates_no_nl (content crate_name : string) :
  no_nl crate_name = true ->
  Forall (fun l => no_nl l = true) (updates_for content crate_name).
Proof.
  intros Hname. unfold updates_for. cbn [List.concat].
  repeat (apply Forall_app; split); try apply missing_field_no_nl;
    try reflexivity; try apply keywords_no_nl; try apply categories_no_nl;
    try constructor.
  unfold documentation_entry. rewrite !no_nl_app, Hname. reflexivity.
Qed.

(** X12: an update only inserts lines: the lines of the text are kept, in
    order, and the new entries stand between two empty lines at one place
    after the first line. *)
Theorem update_only_inserts (content crate_name new_content : string)
        (updates : list string) :
  update_cargo_toml (Some content) crate_name = Updated new_content updates ->
  no_nl crate_name = true ->
  exists before after,
    split "010"%char content = (before ++ after)%list
    /\ before <> []
    /\ split "010"%char new_content
       = (before ++ [EmptyString] ++ updates ++ [EmptyString] ++ after)%list.
Proof.
  intros Hfirst Hname. apply update_shape in Hfirst as (Hups & Hpos & ->).
  set (lines := split "010"%char content) in *.
  set (k := Z.to_nat (package_section_end lines)).
  exists (firstn k lines), (skipn k lines).
  assert (Hbefore : firstn k lines <> []).
  { destruct (split_cons "010"%char content) as (hd & tl & Hsplit).
    fold lines in Hsplit. rewrite Hsplit.
    destruct k as [|k'] eqn:Hk; [subst k; lia | discriminate]. }
  split; [now rewrite firstn_skipn|]. split; [exact Hbefore|].
  apply split_join.
  - destruct (firstn k lines); [congruence | discriminate].
  - pose proof (split_lines_no_nl content) as Hlines. fold lines in Hlines.
    rewrite <- (firstn_skipn k lines) in Hlines.
    apply Forall_app in Hlines as [Hfirst Hskip].
    apply Forall_app. split; [exact Hfirst|].
    cbn [app]. constructor; [reflexivity|].
    apply Forall_app. split; [rewrite Hups; now apply updates_no_nl|].
    constructor; [reflexivity | exact Hskip].
Qed.

Lemma update_only_inserts_witness :
  exists new_content updates before after,
    update_cargo_toml (Some small_manifest) "kotoba-graph" = Updated new_content updates
    /\ split "010"%char small_manifest = (before ++ after)%list
    /\ before <> []
    /\ split "010"%char new_content
       = (before ++ [EmptyString] ++ updates ++ [EmptyString] ++ after)%list.
Proof.
  destruct (update_cargo_toml (Some small_manifest) "kotoba-graph")
    as [|new_content updates| |] eqn:Hfirst; try (vm_compute in Hfirst; discriminate).
  destruct (update_only_inserts small_manifest "kotoba-graph" new_content updates Hfirst)
    as (before & after & Hsplit & Hne & Hnew); [reflexivity|].
  exists new_content, updates, before, after. auto.
Defined.

(** ** Publish preparation of a generated manifest *)

Lemma case_change_no_nl (c : ascii) :
  (is_lower c = true -> Ascii.eqb (to_upper c) "010"%char = false)
  /\ (is_upper c = true -> Ascii.eqb (to_lower c) "010"%char = false).
Proof.
  destruct c as [b0 b1 b2 b3 b4 b5 b6 b7].
  destruct b0, b1, b2, b3, b4, b5, b6, b7; split; intros Hc;
    first [reflexivity | discriminate Hc].
Qed.

Lemma title_from_no_nl (s : string) (previous_is_cased : bool) :
  no_nl s = true -> no_nl (title_from previous_is_cased s) = true.
Proof.
  revert previous_is_cased. induction s as [|c s IH]; intros p Hs; [reflexivity|].
  cbn [no_nl] in Hs. apply andb_true_iff in Hs as [Hc Hs].
  destruct (case_change_no_nl c) as [Hup Hlow].
  cbn [title_from]. destruct (is_lower c) eqn:El.
  - cbn [no_nl]. rewrite (IH true Hs). destruct p; [now rewrite Hc | now rewrite Hup].
  - destruct (is_upper c) eqn:Eu.
    + cbn [no_nl]. rewrite (IH true Hs). destruct p; [now rewrite Hlow | now rewrite Hc].
    + cbn [no_nl]. now rewrite (IH false Hs), Hc.
Qed.

Lemma split_pieces_no_nl (sep : ascii) (s : string) :
  no_nl s = true -> Forall (fun l => no_nl l = true) (split sep s).
Proof.
  induction s as [|c s IH]; intros Hs; cbn [split]; [repeat constructor|].
  cbn [no_nl] in Hs. apply andb_true_iff in Hs as [Hc Hs].
  destruct (Ascii.eqb c sep); [constructor; [reflexivity | now apply IH]|].
  specialize (IH Hs). destruct (split sep s) as [|w ws].
  - repeat constructor. cbn [no_nl]. now rewrite Hc.
  - inversion IH as [|? ? Hw Hws]; subst. constructor; [|exact Hws].
    cbn [no_nl]. now rewrite Hc, Hw.
Qed.

(** A generated manifest starts with the eight package lines and the
    [[dependencies]] line. *)
Lemma generated_lines `{SetOrder}
      (crate_mapping : crate_map) (dag_data : dag) (crate_name text : string) :
  generate_cargo_toml crate_mapping dag_data crate_name = Ok text ->
  no_nl crate_name = true ->
  exists version part after,
    _get_crate_version crate_mapping dag_data crate_name = Ok version
    /\ nth_error (split "-"%char crate_name) 1 = Some part
    /\ after <> []
    /\ split "010"%char text
       = (package_lines crate_name version part ++ "[dependencies]" :: after)%list.
Proof.
  intros Hgen Hname. unfold generate_cargo_toml in Hgen.
  destruct (version_in_three crate_mapping dag_data crate_name) as (v & Hv & Hcases).
  destruct (resolve_returns crate_mapping dag_data crate_name) as (deps & Hdeps).
  rewrite Hv, Hdeps in Hgen. cbn [bind] in Hgen.
  unfold emit_cargo_toml, list_item in Hgen.
  destruct (nth_error (split "-"%char crate_name) 1) as [part|] eqn:Hpart; [|discriminate].
  cbn [bind] in Hgen. rewrite common_deps_added in Hgen. cbn [bind] in Hgen.
  destruct (internal_deps_added crate_mapping dag_data crate_name deps
              (package_header crate_name v part ++ common_block)) as (added & Hloop & _).
  rewrite Hloop in Hgen. cbn [bind] in Hgen. apply Ok_inj in Hgen.
  assert (Hpart_nl : no_nl (title part) = true).
  { apply title_from_no_nl.
    pose proof (split_pieces_no_nl "-"%char crate_name Hname) as Hall.
    rewrite Forall_forall in Hall. apply Hall. eapply nth_error_In. exact Hpart. }
  assert (Hv_nl : no_nl v = true) by (destruct Hcases as [->|[->| ->]]; reflexivity).
  assert (Hshape : exists rest, text = package_header crate_name v part ++ rest).
  { destruct (list_mem crate_name ["kotoba-core"; "kotoba-graph"; "kotoba-server"]);
      subst text; eexists; rewrite !append_assoc; reflexivity. }
  destruct Hshape as (rest & ->).
  destruct (split_cons "010"%char rest) as (hd & tl & Hrest).
  exists v, part, (hd :: tl). split; [exact Hv|]. split; [reflexivity|].
  split; [discriminate|].
  unfold package_header. rewrite !append_assoc.
  repeat (rewrite split_line;
          [|unfold quoted; rewrite ?no_nl_app, ?Hname, ?Hv_nl, ?Hpart_nl; reflexivity]).
  rewrite Hrest. reflexivity.
Qed.

Lemma strip_keeps_head (c : ascii) (s : string) :
  is_space c = false -> exists kept, strip (String c s) = String c kept.
Proof.
  intros Hc. unfold strip. cbn [rstrip].
  destruct (rstrip s) as [|c' kept]; rewrite ?Hc; cbn [lstrip]; rewrite Hc; eauto.
Qed.

(** A line that starts with a letter is inside the section. *)
Lemma section_end_field (c : ascii) (s : string) (rest : list string) (j len_lines : Z) :
  is_space c = false -> Ascii.eqb c "["%char = false ->
  section_end (String c s :: rest) j len_lines = section_end rest (j + 1) len_lines.
Proof.
  intros Hspace Hbracket. cbn [section_end].
  destruct (strip_keeps_head c s Hspace) as (kept & ->).
  cbn [String.prefix String.eqb].
  destruct (ascii_dec "["%char c) as [<-|_]; [discriminate|].
  reflexivity.
Qed.

Lemma generated_section_end (crate_name version part : string) (after : list string) :
  after <> [] ->
  package_section_end
    (package_lines crate_name version part ++ "[dependencies]" :: after)%list = 8.
Proof.
  intros Hafter. unfold package_section_end.
  set (n := Z.of_nat (length (package_lines crate_name version part
                              ++ "[dependencies]" :: after)%list)).
  assert (Hn : 10 <= n).
  { subst n. destruct after as [|a after]; [congruence|].
    unfold package_lines. cbn [app length]. lia. }
  unfold package_lines. cbn [app package_section_end_from].
  change (strip "[package]") with "[package]". cbn [String.eqb Ascii.eqb Bool.eqb].
  unfold quoted. cbn [append].
  do 6 (rewrite section_end_field by reflexivity).
  cbn [section_end]. change (strip EmptyString) with EmptyString.
  change (strip "[dependencies]") with "[dependencies]".
  cbn [String.prefix String.eqb andb negb].
  destruct (Z.eqb_spec (0 + 1 + 1 + 1 + 1 + 1 + 1 + 1) (n - 1)) as [Heq|_]; [lia|].
  reflexivity.
Qed.

(** X13: on a manifest written by [generate_cargo_toml] for a name of
    7-bit characters without line feed, and read back unchanged (no carriage
    return in it), the package section is always found: the missing fields
    are inserted after the eight package lines, right before the
    [[dependencies]] line, unless all six fields are already in the text. *)
Theorem publish_on_generated `{SetOrder}
        (crate_mapping : crate_map) (dag_data : dag) (crate_name text : string) :
  generate_cargo_toml crate_mapping dag_data crate_name = Ok text ->
  is_ascii crate_name = true ->
  no_nl crate_name = true ->
  no_cr text = true ->
  exists version part after,
    split "010"%char text
    = (package_lines crate_name version part ++ "[dependencies]" :: after)%list
    /\ (update_cargo_toml (Some text) crate_name = AlreadyUpToDate
        \/ update_cargo_toml (Some text) crate_name
           = Updated (join nl (package_lines crate_name version part
                               ++ [EmptyString] ++ updates_for text crate_name
                               ++ [EmptyString] ++ "[dependencies]" :: after)%list)
                     (updates_for text crate_name)).
Proof.
  intros Hgen _ Hname _.
  destruct (generated_lines crate_mapping dag_data crate_name text Hgen Hname)
    as (version & part & after & _ & _ & Hafter & Hsplit).
  exists version, part, after. split; [exact Hsplit|].
  unfold update_cargo_toml.
  destruct (updates_for text crate_name) as [|u us]; [now left | right].
  rewrite Hsplit, (generated_section_end crate_name version part after Hafter).
  reflexivity.
Qed.

Lemma publish_on_generated_witness :
  exists text version part after,
    @generate_cargo_toml kept_order builtin_crate_mapping builtin_dag_data "kotoba-graph"
    = Ok text
    /\ split "010"%char text
       = (package_lines "kotoba-graph" version part ++ "[dependencies]" :: after)%list
    /\ (update_cargo_toml (Some text) "kotoba-graph" = AlreadyUpToDate
        \/ update_cargo_toml (Some text) "kotoba-graph"
           = Updated (join nl (package_lines "kotoba-graph" version part
                               ++ [EmptyString] ++ updates_for text "kotoba-graph"
                               ++ [EmptyString] ++ "[dependencies]" :: after)%list)
                     (updates_for text "kotoba-graph")).
Proof.
  destruct (@generate_cargo_toml kept_order builtin_crate_mapping builtin_dag_data
              "kotoba-graph") as [text|e] eqn:Hgen; [|vm_compute in Hgen; discriminate].
  assert (Hcr : no_cr text = true).
  { pose proof Hgen as Hval. vm_compute in Hval. apply Ok_inj in Hval.
    rewrite <- Hval. vm_compute. reflexivity. }
  destruct (@publish_on_generated kept_order builtin_crate_mapping builtin_dag_data
              "kotoba-graph" text Hgen) as (version & part & after & Hsplit & Hcases);
    [reflexivity|reflexivity|exact Hcr|].
  exists text, version, part, after. auto.
Defined.

Lemma no_package_line (lines_from : list string) (i len_lines : Z) :
  Forall (fun l => String.eqb (strip l) "[package]" = false) lines_from ->
  package_section_end_from lines_from i len_lines = -1.
Proof.
  intros Hall. revert i. induction Hall as [|l ls Hl Hls IH]; intros i; [reflexivity|].
  cbn [package_section_end_from]. now rewrite Hl.
Qed.

(** X14: a text of 7-bit characters none of whose lines is [[package]]
    (spaces aside) is never rewritten: the call ends with the warning, or
    with nothing to add. *)
Theorem update_needs_package_line (content crate_name : string) :
  is_ascii content = true ->
  Forall (fun l => String.eqb (strip l) "[package]" = false) (split "010"%char content) ->
  update_cargo_toml (Some content) crate_name = NoPackageSection
  \/ update_cargo_toml (Some content) crate_name = AlreadyUpToDate.
Proof.
  intros _ Hall. unfold update_cargo_toml.
  destruct (updates_for content crate_name) as [|u us]; [now right | left].
  unfold package_section_end. now rewrite no_package_line.
Qed.

Lemma update_needs_package_line_witness :
  update_cargo_toml (Some (line "[workspace]" ++ line "members = []")) "kotoba-core"
  = NoPackageSection
  \/ update_cargo_toml (Some (line "[workspace]" ++ line "members = []")) "kotoba-core"
     = AlreadyUpToDate.
Proof. apply update_needs_package_line; [reflexivity | repeat constructor]. Defined.

(** The inner loop on a section that no other section follows: only an
    empty last line ends it. *)
Lemma section_end_last (fields : list string) (previous : string) (j len_lines : Z) :
  Forall (fun l => String.prefix "[" (strip l) = false) fields ->
  j + Z.of_nat (length fields) = len_lines ->
  String.eqb (strip previous) EmptyString = false ->
  section_end fields j len_lines
  = if String.eqb (strip (last fields previous)) EmptyString then len_lines else -1.
Proof.
  intros Hall. revert previous j.
  induction Hall as [|l ls Hl Hls IH]; intros previous j Hlen Hprev.
  - cbn [section_end last]. now rewrite Hprev.
  - cbn [section_end]. rewrite Hl. cbn [andb].
    destruct ls as [|l' ls].
    + cbn [last length] in *. cbn [section_end].
      destruct (String.eqb (strip l) EmptyString); cbn [andb]; [|reflexivity].
      destruct (Z.eqb_spec j (len_lines - 1)); [|lia]. lia.
    + destruct (Z.eqb_spec j (len_lines - 1)) as [Heq|_].
      * cbn [length] in Hlen. lia.
      * rewrite andb_false_r.
        change (last (l :: l' :: ls) previous) with (last (l' :: ls) previous).
        apply IH; [|exact Hprev]. cbn [length] in *. lia.
Qed.

Lemma package_found (before : list string) (pkg : string) (fields : list string)
      (i len_lines : Z) :
  Forall (fun l => String.eqb (strip l) "[package]" = false) before ->
  String.eqb (strip pkg) "[package]" = true ->
  package_section_end_from (before ++ pkg :: fields) i len_lines
  = section_end fields (i + Z.of_nat (length before) + 1) len_lines.
Proof.
  intros Hall Hpkg. revert i. induction Hall as [|l ls Hl Hls IH]; intros i.
  - cbn [app package_section_end_from length]. rewrite Hpkg. f_equal. lia.
  - cbn [app package_section_end_from length]. rewrite Hl, IH. f_equal. lia.
Qed.

(** X15: in a text of 7-bit characters whose package section is the last
    section, the fields are added only if the last line of the text is
    empty (spaces aside); they are then appended at the end.  A text whose
    last line is not empty is left as it is. *)
Theorem update_last_section (content crate_name pkg : string)
        (before fields : list string) :
  is_ascii content = true ->
  split "010"%char content = (before ++ pkg :: fields)%list ->
  Forall (fun l => String.eqb (strip l) "[package]" = false) before ->
  String.eqb (strip pkg) "[package]" = true ->
  Forall (fun l => String.prefix "[" (strip l) = false) fields ->
  updates_for content crate_name <> [] ->
  (String.eqb (strip (last fields pkg)) EmptyString = false ->
   update_cargo_toml (Some content) crate_name = NoPackageSection)
  /\ (String.eqb (strip (last fields pkg)) EmptyString = true ->
      update_cargo_toml (Some content) crate_name
      = Updated (join nl (split "010"%char content ++ [EmptyString]
                          ++ updates_for content crate_name ++ [EmptyString])%list)
                (updates_for content crate_name)).
Proof.
  intros _ Hsplit Hbefore Hpkg Hfields Hups.
  assert (Hprev : String.eqb (strip pkg) EmptyString = false).
  { apply String.eqb_eq in Hpkg. now rewrite Hpkg. }
  assert (Hend : package_section_end (split "010"%char content)
                 = if String.eqb (strip (last fields pkg)) EmptyString
                   then Z.of_nat (length (split "010"%char content)) else -1).
  { unfold package_section_end. rewrite Hsplit.
    rewrite (package_found before pkg fields 0 _ Hbefore Hpkg).
    apply section_end_last; [exact Hfields| |exact Hprev].
    rewrite length_app. cbn [length]. lia. }
  unfold update_cargo_toml.
  destruct (updates_for content crate_name) as [|u us] eqn:Hu; [congruence|].
  rewrite Hend. split; intros Hlast; rewrite Hlast.
  - reflexivity.
  - destruct (split_cons "010"%char content) as (hd & tl & Hcons).
    replace (0 <? Z.of_nat (length (split "010"%char content))) with true
      by (symmetry; apply Z.ltb_lt; rewrite Hcons; cbn [length]; lia).
    rewrite Nat2Z.id, firstn_all, skipn_all. now rewrite app_nil_r.
Qed.

Lemma update_last_section_witness :
  update_cargo_toml (Some ("[package]" ++ nl ++ "name = x")) "kotoba-graph"
  = NoPackageSection.
Proof.
  apply (update_last_section ("[package]" ++ nl ++ "name = x") "kotoba-graph"
           "[package]" [] ["name = x"]); try reflexivity.
  - constructor.
  - repeat constructor.
  - vm_compute. discriminate.
Defined.
